(** * pyjaubas: the JAudio sound animation (BAS) codec

    A shallow embedding of [pyjaubas/bas.py]: the sound ID lookup table
    ([JAUSoundIdTable]), the 32-byte sound entry ([JAUSoundAnimationSound]),
    the animation ([JAUSoundAnimation], a header followed by entries), the
    buffer helpers [from_buffer] and [pack_buffer], and the JSON helpers
    [dump_json] and [from_json].

    Python exceptions are values of [exn]; a computation that may raise
    returns a [result].  The [struct] module is modelled for the five format
    codes the program uses.  The conversion between a Python float and its
    binary32 image performed by the code [f] belongs to the interpreter, not
    to the program: it is the interface [FloatCodec], and [ieee] is its
    instance for IEEE 754 binary64 floats. *)

From Stdlib Require Import ZArith String Ascii List Bool Lia.
From coqutil Require Import Byte Word.LittleEndianList.
Import ListNotations.
Local Open Scope Z_scope.
Local Open Scope list_scope.

(** ** Exceptions and results *)

Inductive exn : Set :=
| KeyError            (* LookupNotFound *)
| StructError         (* struct.error: TruncatedBuffer, or a value that does not fit its field *)
| OverflowError       (* float too large to pack with f format *)
| ValueError          (* MalformedSource *)
| TypeError
| FileNotFoundError.  (* SourceUnavailable *)

Inductive result (A : Type) : Type :=
| Ok (a : A)
| Raise (e : exn).
Arguments Ok {A} a.
Arguments Raise {A} e.

Definition bind {A B : Type} (c : result A) (k : A -> result B) : result B :=
  match c with
  | Ok a => k a
  | Raise e => Raise e
  end.

Notation "x <- c ;; k" := (bind c (fun x => k))
  (at level 61, c at next level, right associativity).

Definition is_ok {A : Type} (c : result A) : bool :=
  match c with Ok _ => true | Raise _ => false end.

(** ** Python floats and their binary32 image *)

Class FloatCodec : Type := {
  pyfloat : Type;
  (** [PyFloat_Unpack4]: the float denoted by a 32-bit pattern. *)
  f32_unpack : Z -> pyfloat;
  (** [PyFloat_Pack4]: the 32-bit pattern of a float rounded to binary32;
      [None] when the float is too large (OverflowError). *)
  f32_pack : pyfloat -> option Z;
  (** [int.__float__]; [None] when the integer is too large. *)
  float_of_int : Z -> option pyfloat;
  (** The literals [0.0] and [1.0]. *)
  float_0 : pyfloat;
  float_1 : pyfloat
}.

Section Model.
Context {FC : FloatCodec}.

(** ** Python values

    The values an attribute of a sound or a node of a loaded JSON document
    can hold.  A [dict] is an association list in insertion order. *)

#[local] Unset Elimination Schemes.
Inductive pyval : Type :=
| PNone
| PBool (b : bool)
| PInt (z : Z)
| PFloat (x : pyfloat)
| PStr (s : string)
| PList (l : list pyval)
| PDict (d : list (string * pyval)).
#[local] Set Elimination Schemes.

(** ** The [struct] module *)

Inductive fmtcode : Set :=
| c_x   (* pad byte *)
| c_B   (* unsigned char *)
| c_H   (* unsigned short *)
| c_I   (* unsigned int *)
| c_f.  (* float *)

Record Struct : Set := mkStruct {
  s_big : bool;             (* [>] is true, [<] is false *)
  s_codes : list fmtcode
}.

Definition code_size (c : fmtcode) : nat :=
  match c with
  | c_x => 1 | c_B => 1 | c_H => 2 | c_I => 4 | c_f => 4
  end.

Fixpoint codes_size (cs : list fmtcode) : nat :=
  match cs with
  | [] => 0
  | c :: cs' => code_size c + codes_size cs'
  end.

(** The number of values a format packs: every code but [x] takes one. *)
Fixpoint codes_len (cs : list fmtcode) : nat :=
  match cs with
  | [] => 0
  | c_x :: cs' => codes_len cs'
  | _ :: cs' => S (codes_len cs')
  end.

Definition s_size (st : Struct) : Z := Z.of_nat (codes_size (s_codes st)).

(** Compilation of a format string: a byte order mark, then codes with
    optional repeat counts. *)
Definition code_of_ascii (a : ascii) : option fmtcode :=
  match a with
  | "x"%char => Some c_x
  | "B"%char => Some c_B
  | "H"%char => Some c_H
  | "I"%char => Some c_I
  | "f"%char => Some c_f
  | _ => None
  end.

Definition digit_of_ascii (a : ascii) : option nat :=
  let n := nat_of_ascii a in
  if ((48 <=? n) && (n <=? 57))%nat then Some (n - 48)%nat else None.

Fixpoint compile_codes (s : string) (count : option nat) : option (list fmtcode) :=
  match s with
  | EmptyString => match count with None => Some [] | Some _ => None end
  | String a s' =>
      match digit_of_ascii a with
      | Some d =>
          compile_codes s' (Some (match count with None => d | Some n => 10 * n + d end)%nat)
      | None =>
          match code_of_ascii a, compile_codes s' None with
          | Some c, Some cs =>
              Some (repeat c (match count with None => 1 | Some n => n end)%nat ++ cs)
          | _, _ => None
          end
      end
  end.

Definition compile (fmt : string) : option Struct :=
  match fmt with
  | String ">"%char s => option_map (mkStruct true) (compile_codes s None)
  | String "<"%char s => option_map (mkStruct false) (compile_codes s None)
  | _ => None
  end.

(** Unsigned integers of [n] bytes in the byte order of the format. *)
Definition uint_bytes (big : bool) (n : nat) (z : Z) : list byte :=
  if big then rev (le_split n z) else le_split n z.

Definition uint_value (big : bool) (bs : list byte) : Z :=
  if big then le_combine (rev bs) else le_combine bs.

(** [get_pylong]: an [int] (a [bool] is one); anything else is refused. *)
Definition as_index (v : pyval) : option Z :=
  match v with
  | PInt z => Some z
  | PBool b => Some (if b then 1 else 0)
  | _ => None
  end.

(** [PyFloat_AsDouble]. *)
Definition as_double (v : pyval) : option pyfloat :=
  match v with
  | PFloat x => Some x
  | PInt z => float_of_int z
  | PBool b => float_of_int (if b then 1 else 0)
  | _ => None
  end.

Definition pack_uint (big : bool) (n : nat) (v : pyval) : result (list byte) :=
  match as_index v with
  | Some z =>
      if (0 <=? z) && (z <? 2 ^ (8 * Z.of_nat n)) then Ok (uint_bytes big n z)
      else Raise StructError
  | None => Raise StructError
  end.

(** [PyLong_Check]: an [int] or a [bool]. *)
Definition is_pylong (v : pyval) : bool :=
  match v with
  | PInt _ | PBool _ => true
  | _ => false
  end.

(** The code [f].  A value that [PyFloat_AsDouble] refuses is a
    struct.error; a float too large for binary32 is an OverflowError,
    which [s_pack_internal] turns into a struct.error when the argument is
    an [int]. *)
Definition pack_float (big : bool) (v : pyval) : result (list byte) :=
  match as_double v with
  | Some x =>
      match f32_pack x with
      | Some w => Ok (uint_bytes big 4 w)
      | None => if is_pylong v then Raise StructError else Raise OverflowError
      end
  | None => Raise StructError
  end.

(** One code that takes a value. *)
Definition pack_code (big : bool) (c : fmtcode) (v : pyval) : result (list byte) :=
  match c with
  | c_x => Ok [Byte.x00]
  | c_B => pack_uint big 1 v
  | c_H => pack_uint big 2 v
  | c_I => pack_uint big 4 v
  | c_f => pack_float big v
  end.

(** [s_pack_internal]: the codes in order; a pad byte is written as zero
    and takes no value. *)
Fixpoint pack_codes (big : bool) (cs : list fmtcode) (vs : list pyval)
  : result (list byte) :=
  match cs with
  | [] => Ok []
  | c_x :: cs' =>
      rest <- pack_codes big cs' vs ;;
      Ok (Byte.x00 :: rest)
  | c :: cs' =>
      match vs with
      | [] => Raise StructError
      | v :: vs' =>
          b <- pack_code big c v ;;
          rest <- pack_codes big cs' vs' ;;
          Ok (b ++ rest)
      end
  end.

Definition unpack_code (big : bool) (c : fmtcode) (bs : list byte) : pyval :=
  match c with
  | c_f => PFloat (f32_unpack (uint_value big bs))
  | _ => PInt (uint_value big bs)
  end.

(** [s_unpack_internal] on the bytes of one record. *)
Fixpoint unpack_codes (big : bool) (cs : list fmtcode) (bs : list byte) : list pyval :=
  match cs with
  | [] => []
  | c_x :: cs' => unpack_codes big cs' (skipn 1 bs)
  | c :: cs' =>
      unpack_code big c (firstn (code_size c) bs)
        :: unpack_codes big cs' (skipn (code_size c) bs)
  end.

(** The start of the record for an offset that may be negative (counted
    from the end), or [None] when [size] bytes do not fit there. *)
Definition locate (len size off : Z) : option Z :=
  if off <? 0 then
    if 0 <? off + size then None
    else if off + len <? 0 then None
    else if len - (off + len) <? size then None
    else Some (off + len)
  else
    if len - off <? size then None else Some off.

(** [Struct.unpack_from(buffer, offset)]. *)
Definition unpack_from (st : Struct) (data : list byte) (off : Z) : result (list pyval) :=
  match locate (Z.of_nat (length data)) (s_size st) off with
  | Some o =>
      Ok (unpack_codes (s_big st) (s_codes st)
            (firstn (codes_size (s_codes st)) (skipn (Z.to_nat o) data)))
  | None => Raise StructError
  end.

(** [Struct.pack_into(buffer, offset, v1, v2, ...)]: the new contents of
    the buffer. *)
Definition pack_into (st : Struct) (buffer : list byte) (off : Z) (vs : list pyval)
  : result (list byte) :=
  if negb (length vs =? codes_len (s_codes st))%nat then Raise StructError
  else
    match locate (Z.of_nat (length buffer)) (s_size st) off with
    | Some o =>
        bs <- pack_codes (s_big st) (s_codes st) vs ;;
        Ok (firstn (Z.to_nat o) buffer ++ bs
              ++ skipn (Z.to_nat o + codes_size (s_codes st)) buffer)
    | None => Raise StructError
    end.

(** ** Strings: [str.strip], [str.split] and [int] *)

Fixpoint lstrip (p : ascii -> bool) (s : string) : string :=
  match s with
  | EmptyString => EmptyString
  | String a s' => if p a then lstrip p s' else s
  end.

Fixpoint rstrip (p : ascii -> bool) (s : string) : string :=
  match s with
  | EmptyString => EmptyString
  | String a s' =>
      match rstrip p s' with
      | EmptyString => if p a then EmptyString else String a EmptyString
      | r => String a r
      end
  end.

Definition strip (p : ascii -> bool) (s : string) : string :=
  rstrip p (lstrip p s).

(** [s.split(sep)] for a separator of one character: never empty. *)
Fixpoint split (sep : ascii) (s : string) : list string :=
  match s with
  | EmptyString => [EmptyString]
  | String a s' =>
      if Ascii.eqb a sep then EmptyString :: split sep s'
      else
        match split sep s' with
        | f :: fs => String a f :: fs
        | [] => [String a EmptyString]
        end
  end.

(** The characters of ["\r\n"]. *)
Definition is_crlf (a : ascii) : bool :=
  let n := nat_of_ascii a in ((n =? 13) || (n =? 10))%nat.

(** The white space [int] skips around a literal read from a latin1 file:
    tab, line feed, vertical tab, form feed, carriage return, space, next
    line and no-break space. *)
Definition is_space (a : ascii) : bool :=
  let n := nat_of_ascii a in
  (((9 <=? n) && (n <=? 13)) || (n =? 32) || (n =? 133) || (n =? 160))%nat.

(** Decimal digits with single underscores between them. *)
Fixpoint parse_digits (s : string) (acc : Z) (after_digit : bool) : option Z :=
  match s with
  | EmptyString => if after_digit then Some acc else None
  | String a s' =>
      match digit_of_ascii a with
      | Some d => parse_digits s' (10 * acc + Z.of_nat d) true
      | None =>
          if Ascii.eqb a "_"%char && after_digit then parse_digits s' acc false
          else None
      end
  end.

(** [int(s)] in base ten; [None] is ValueError.  (The limit recent
    interpreters put on the number of digits is left out.) *)
Definition int_of_str (s : string) : option Z :=
  match strip is_space s with
  | String "-"%char r => option_map Z.opp (parse_digits r 0 false)
  | String "+"%char r => parse_digits r 0 false
  | r => parse_digits r 0 false
  end.

(** ** Sound ID lookup table *)

(** The [_lookup_] dict: names to IDs, in insertion order. *)
Definition JAUSoundIdTable : Set := list (string * Z).

(** [d[k] = v]: a key that is present keeps its place. *)
Fixpoint dict_set (d : JAUSoundIdTable) (k : string) (v : Z) : JAUSoundIdTable :=
  match d with
  | [] => [(k, v)]
  | (k', v') :: d' =>
      if String.eqb k' k then (k', v) :: d' else (k', v') :: dict_set d' k v
  end.

(** What [os.path.exists] and [readlines] find at the lookup file path. *)
Inductive lookup_file : Set :=
| Missing
| Lines (lines : list string).

Definition table_add_line (d : JAUSoundIdTable) (field : string)
  : result JAUSoundIdTable :=
  match split ","%char (strip is_crlf field) with
  | [sound_name; sound_id_str] =>
      match int_of_str sound_id_str with
      | Some sound_id => Ok (dict_set d sound_name sound_id)
      | None => Raise ValueError
      end
  | _ => Raise ValueError
  end.

Fixpoint table_load (d : JAUSoundIdTable) (lines : list string)
  : result JAUSoundIdTable :=
  match lines with
  | [] => Ok d
  | field :: lines' =>
      d' <- table_add_line d field ;;
      table_load d' lines'
  end.

(** [JAUSoundIdTable.__init__]. *)
Definition JAUSoundIdTable_init (f : lookup_file) : result JAUSoundIdTable :=
  match f with
  | Lines lines => table_load [] lines
  | Missing => Raise FileNotFoundError
  end.

Fixpoint find_name (self : JAUSoundIdTable) (sound_id : Z) : result string :=
  match self with
  | [] => Raise KeyError
  | (name, index) :: rest =>
      if index =? sound_id then Ok name else find_name rest sound_id
  end.

Fixpoint dict_get (d : JAUSoundIdTable) (k : string) : result Z :=
  match d with
  | [] => Raise KeyError
  | (k', v) :: d' => if String.eqb k' k then Ok v else dict_get d' k
  end.

(** [self._lookup_[sound_name]]: the keys are strings, so no other
    hashable value is found; a list or a dict is not hashable. *)
Definition find_id (self : JAUSoundIdTable) (sound_name : pyval) : result Z :=
  match sound_name with
  | PStr s => dict_get self s
  | PList _ | PDict _ => Raise TypeError
  | _ => Raise KeyError
  end.

(** ** Sound entries *)

Record JAUSoundAnimationSound : Type := mkSound {
  sound : pyval;
  start_frame : pyval;
  unk8 : pyval;
  pitch : pyval;
  flags : pyval;
  volume : pyval;
  pitch_factor : pyval;
  unk16 : pyval;
  pan : pyval;
  volume_factor : pyval;
  unk19 : pyval
}.

(** [">I3fI6B6x"] and ["<I3fI6B6x"]. *)
Definition sound_codes : list fmtcode :=
  [c_I; c_f; c_f; c_f; c_I; c_B; c_B; c_B; c_B; c_B; c_B;
   c_x; c_x; c_x; c_x; c_x; c_x].
Definition SOUND_STRUCT_BE : Struct := mkStruct true sound_codes.
Definition SOUND_STRUCT_LE : Struct := mkStruct false sound_codes.

(** [JAUSoundAnimationSound.__init__]. *)
Definition Sound_init : JAUSoundAnimationSound :=
  {| sound := PStr EmptyString;
     start_frame := PFloat float_0;
     unk8 := PFloat float_0;
     pitch := PFloat float_1;
     flags := PInt 0;
     volume := PInt 127;
     pitch_factor := PInt 0;
     unk16 := PInt 0;
     pan := PInt 64;
     volume_factor := PInt 0;
     unk19 := PInt 0 |}.

(** The assignments of [_unpack_]: the unpacked tuple is spread over the
    attributes and the ID is looked up.  The two last branches are the
    failures of a comparison and of a tuple unpacking that [unpack_from]
    never causes. *)
Definition Sound_assign (lookup : JAUSoundIdTable) (vs : list pyval)
  : result JAUSoundAnimationSound :=
  match vs with
  | [PInt sound_id; v_start_frame; v_unk8; v_pitch; v_flags; v_volume;
     v_pitch_factor; v_unk16; v_pan; v_volume_factor; v_unk19] =>
      name <- find_name lookup sound_id ;;
      Ok {| sound := PStr name;
            start_frame := v_start_frame;
            unk8 := v_unk8;
            pitch := v_pitch;
            flags := v_flags;
            volume := v_volume;
            pitch_factor := v_pitch_factor;
            unk16 := v_unk16;
            pan := v_pan;
            volume_factor := v_volume_factor;
            unk19 := v_unk19 |}
  | [_; _; _; _; _; _; _; _; _; _; _] => Raise TypeError
  | _ => Raise ValueError
  end.

(** [JAUSoundAnimationSound._unpack_] on a fresh sound: the sound it
    becomes. *)
Definition Sound_unpack (data : list byte) (off : Z) (is_big_endian : bool)
    (lookup : JAUSoundIdTable) : result JAUSoundAnimationSound :=
  let strct := if is_big_endian then SOUND_STRUCT_BE else SOUND_STRUCT_LE in
  vs <- unpack_from strct data off ;;
  Sound_assign lookup vs.

(** [JAUSoundAnimationSound._pack_]: the new contents of [data].  The ID
    is looked up before [pack_into] is entered. *)
Definition Sound_pack (self : JAUSoundAnimationSound) (data : list byte) (off : Z)
    (is_big_endian : bool) (lookup : JAUSoundIdTable) : result (list byte) :=
  let strct := if is_big_endian then SOUND_STRUCT_BE else SOUND_STRUCT_LE in
  sound_id <- find_id lookup (sound self) ;;
  pack_into strct data off
    [PInt sound_id; start_frame self; unk8 self; pitch self; flags self;
     volume self; pitch_factor self; unk16 self; pan self;
     volume_factor self; unk19 self].

(** ** Sound animations *)

(** A [JAUSoundAnimation] is a list of sounds with three attributes. *)
Record JAUSoundAnimation : Type := mkAnimation {
  _lookup_ : JAUSoundIdTable;
  unk2 : pyval;
  unk3 : pyval;
  sounds : list JAUSoundAnimationSound
}.

(** [">H2B4x"] and ["<H2B4x"]. *)
Definition animation_codes : list fmtcode :=
  [c_H; c_B; c_B; c_x; c_x; c_x; c_x].
Definition ANIMATION_STRUCT_BE : Struct := mkStruct true animation_codes.
Definition ANIMATION_STRUCT_LE : Struct := mkStruct false animation_codes.

(** [JAUSoundAnimation.__init__]. *)
Definition Animation_init (lookup : JAUSoundIdTable) : JAUSoundAnimation :=
  {| _lookup_ := lookup; unk2 := PInt 0; unk3 := PInt 0; sounds := [] |}.

(** The loop of [_unpack_]: [n] sounds read at [off], [off + 32], ... and
    appended to [acc]. *)
Fixpoint unpack_loop (lookup : JAUSoundIdTable) (data : list byte)
    (is_big_endian : bool) (n : nat) (off : Z)
    (acc : list JAUSoundAnimationSound) : result (list JAUSoundAnimationSound) :=
  match n with
  | O => Ok acc
  | S n' =>
      s <- Sound_unpack data off is_big_endian lookup ;;
      unpack_loop lookup data is_big_endian n' (off + 32) (acc ++ [s])
  end.

(** [JAUSoundAnimation._unpack_]: the animation [self] becomes. *)
Definition Animation_unpack (self : JAUSoundAnimation) (data : list byte) (off : Z)
    (is_big_endian : bool) : result JAUSoundAnimation :=
  let strct := if is_big_endian then ANIMATION_STRUCT_BE else ANIMATION_STRUCT_LE in
  vs <- unpack_from strct data off ;;
  match vs with
  | [PInt num_entries; v_unk2; v_unk3] =>
      ss <- unpack_loop (_lookup_ self) data is_big_endian
              (Z.to_nat num_entries) (off + 8) (sounds self) ;;
      Ok {| _lookup_ := _lookup_ self; unk2 := v_unk2; unk3 := v_unk3; sounds := ss |}
  | [_; _; _] => Raise TypeError
  | _ => Raise ValueError
  end.

(** The loop of [makebin]. *)
Fixpoint pack_loop (lookup : JAUSoundIdTable) (is_big_endian : bool)
    (ss : list JAUSoundAnimationSound) (off_tmp : Z) (buffer : list byte)
  : result (list byte) :=
  match ss with
  | [] => Ok buffer
  | s :: ss' =>
      buffer' <- Sound_pack s buffer off_tmp is_big_endian lookup ;;
      pack_loop lookup is_big_endian ss' (off_tmp + 32) buffer'
  end.

(** [JAUSoundAnimation.makebin]. *)
Definition makebin (self : JAUSoundAnimation) (is_big_endian : bool)
  : result (list byte) :=
  let buffer := repeat Byte.x00 (8 + length (sounds self) * 32) in
  let strct := if is_big_endian then ANIMATION_STRUCT_BE else ANIMATION_STRUCT_LE in
  buffer <- pack_into strct buffer 0
              [PInt (Z.of_nat (length (sounds self))); unk2 self; unk3 self] ;;
  pack_loop (_lookup_ self) is_big_endian (sounds self) 8 buffer.

(** ** Helper functions *)

Definition from_buffer (lookup : JAUSoundIdTable) (buffer : list byte) (offset : Z)
    (big_endian : bool) : result JAUSoundAnimation :=
  Animation_unpack (Animation_init lookup) buffer offset big_endian.

Definition pack_buffer (soundanm : JAUSoundAnimation) (big_endian : bool)
  : result (list byte) :=
  makebin soundanm big_endian.

(** [sound.__dict__]: the attributes in the order [__init__] creates them. *)
Definition Sound_dict (s : JAUSoundAnimationSound) : list (string * pyval) :=
  [("sound"%string, sound s); ("start_frame"%string, start_frame s);
   ("unk8"%string, unk8 s); ("pitch"%string, pitch s); ("flags"%string, flags s);
   ("volume"%string, volume s); ("pitch_factor"%string, pitch_factor s);
   ("unk16"%string, unk16 s); ("pan"%string, pan s);
   ("volume_factor"%string, volume_factor s); ("unk19"%string, unk19 s)].

(** [dump_json]: the value [dumped] that is handed to [json.dump].  The
    text [json.dump] writes is not modelled, and it does not determine
    this value: every NaN is written as [NaN], whatever its sign and
    payload. *)
Definition dump_json (soundanm : JAUSoundAnimation) : pyval :=
  PDict [("unk2"%string, unk2 soundanm);
         ("unk3"%string, unk3 soundanm);
         ("sounds"%string,
          PList (map (fun s => PDict (Sound_dict s)) (sounds soundanm)))].

(** [v[key]] for a string key. *)
Fixpoint assoc_get (d : list (string * pyval)) (key : string) : result pyval :=
  match d with
  | [] => Raise KeyError
  | (k, v) :: d' => if String.eqb k key then Ok v else assoc_get d' key
  end.

Definition py_getitem (v : pyval) (key : string) : result pyval :=
  match v with
  | PDict d => assoc_get d key
  | _ => Raise TypeError
  end.

Fixpoint chars (s : string) : list pyval :=
  match s with
  | EmptyString => []
  | String a s' => PStr (String a EmptyString) :: chars s'
  end.

(** The items a [for] loop draws from a value. *)
Definition py_iter (v : pyval) : result (list pyval) :=
  match v with
  | PList l => Ok l
  | PDict d => Ok (map (fun kv => PStr (fst kv)) d)
  | PStr s => Ok (chars s)
  | _ => Raise TypeError
  end.

(** The body of the loop of [from_json]: the first assignment stores the
    start frame in the attribute [sound]; [start_frame] keeps its default. *)
Definition from_json_sound (sound_entry : pyval) : result JAUSoundAnimationSound :=
  v_sound <- py_getitem sound_entry "start_frame" ;;
  v_unk8 <- py_getitem sound_entry "unk8" ;;
  v_pitch <- py_getitem sound_entry "pitch" ;;
  v_flags <- py_getitem sound_entry "flags" ;;
  v_volume <- py_getitem sound_entry "volume" ;;
  v_pitch_factor <- py_getitem sound_entry "pitch_factor" ;;
  v_unk16 <- py_getitem sound_entry "unk16" ;;
  v_pan <- py_getitem sound_entry "pan" ;;
  v_volume_factor <- py_getitem sound_entry "volume_factor" ;;
  v_unk19 <- py_getitem sound_entry "unk19" ;;
  Ok {| sound := v_sound;
        start_frame := start_frame Sound_init;
        unk8 := v_unk8;
        pitch := v_pitch;
        flags := v_flags;
        volume := v_volume;
        pitch_factor := v_pitch_factor;
        unk16 := v_unk16;
        pan := v_pan;
        volume_factor := v_volume_factor;
        unk19 := v_unk19 |}.

Fixpoint from_json_loop (entries : list pyval) (acc : list JAUSoundAnimationSound)
  : result (list JAUSoundAnimationSound) :=
  match entries with
  | [] => Ok acc
  | sound_entry :: entries' =>
      s <- from_json_sound sound_entry ;;
      from_json_loop entries' (acc ++ [s])
  end.

(** [from_json] on the value [json.load] returns. *)
Definition from_json (lookup : JAUSoundIdTable) (jsondata : pyval)
  : result JAUSoundAnimation :=
  v_unk2 <- py_getitem jsondata "unk2" ;;
  v_unk3 <- py_getitem jsondata "unk3" ;;
  v_sounds <- py_getitem jsondata "sounds" ;;
  entries <- py_iter v_sounds ;;
  ss <- from_json_loop entries [] ;;
  Ok {| _lookup_ := lookup; unk2 := v_unk2; unk3 := v_unk3; sounds := ss |}.

End Model.

(** ** IEEE 754 floats

    A Python float is a binary64 number, here its 64-bit pattern: sign,
    eleven bits of exponent, fifty-two bits of fraction.  Conversions round
    to nearest, ties to even.  A NaN keeps the leading bits of its payload
    and comes out quiet, as the conversion instructions of x86-64 and
    AArch64 leave it; an interpreter that restores the signalling bit is
    another instance of [FloatCodec]. *)

Module IEEE.

(** [x / 2 ^ sh] rounded to nearest, ties to even; [1 <= sh]. *)
Definition rne (x sh : Z) : Z :=
  let q := x / 2 ^ sh in
  let r := x mod 2 ^ sh in
  let h := 2 ^ (sh - 1) in
  if r <? h then q
  else if h <? r then q + 1
  else if Z.even q then q else q + 1.

Definition join64 (s e m : Z) : Z := s * 2 ^ 63 + e * 2 ^ 52 + m.
Definition join32 (s e m : Z) : Z := s * 2 ^ 31 + e * 2 ^ 23 + m.

(** A signalling NaN: the exponent is all ones, the fraction is not zero
    and its leading bit, the quiet bit, is clear. *)
Definition is_snan32 (w : Z) : bool :=
  ((w / 2 ^ 23) mod 256 =? 255)
  && negb (w mod 2 ^ 23 =? 0)
  && (w mod 2 ^ 23 <? 2 ^ 22).

(** The pattern with the quiet bit set when it is a signalling NaN. *)
Definition quiet32 (w : Z) : Z :=
  if is_snan32 w then w + 2 ^ 22 else w.

(** binary32 to binary64: exact, but for the quiet bit of a NaN. *)
Definition f64_of_f32 (w : Z) : Z :=
  let s := w / 2 ^ 31 in
  let e := (w / 2 ^ 23) mod 256 in
  let m := w mod 2 ^ 23 in
  if e =? 255 then
    if m =? 0 then join64 s 2047 0
    else
      let p := m * 2 ^ 29 in
      join64 s 2047 (if p <? 2 ^ 51 then p + 2 ^ 51 else p)
  else if e =? 0 then
    if m =? 0 then join64 s 0 0
    else
      let k := Z.log2 m in
      join64 s (k + 874) ((m - 2 ^ k) * 2 ^ (52 - k))
  else join64 s (e + 896) (m * 2 ^ 29).

(** binary64 to binary32; [None] when a finite number rounds to an
    infinity. *)
Definition f32_of_f64 (d : Z) : option Z :=
  let s := d / 2 ^ 63 in
  let e := (d / 2 ^ 52) mod 2048 in
  let m := d mod 2 ^ 52 in
  if e =? 2047 then
    if m =? 0 then Some (join32 s 255 0)
    else
      let p := m / 2 ^ 29 in
      Some (join32 s 255 (if p <? 2 ^ 22 then p + 2 ^ 22 else p))
  else if e =? 0 then Some (join32 s 0 0)
  else
    let E := e - 1023 in
    let M := 2 ^ 52 + m in
    if -126 <=? E then
      let bits := (E + 126) * 2 ^ 23 + rne M 29 in
      if 255 * 2 ^ 23 <=? bits then None else Some (s * 2 ^ 31 + bits)
    else Some (s * 2 ^ 31 + rne M (-97 - E)).

(** An integer to binary64; [None] when it is too large. *)
Definition f64_of_int (z : Z) : option Z :=
  let s := if z <? 0 then 1 else 0 in
  let a := Z.abs z in
  if a =? 0 then Some 0
  else
    let k := Z.log2 a in
    if k <=? 52 then Some (join64 s (k + 1023) (a * 2 ^ (52 - k) - 2 ^ 52))
    else
      let bits := (k + 1022) * 2 ^ 52 + rne a (k - 52) in
      if 2047 * 2 ^ 52 <=? bits then None else Some (s * 2 ^ 63 + bits).

End IEEE.

#[export] Instance ieee : FloatCodec :=
  {| pyfloat := Z;
     f32_unpack := IEEE.f64_of_f32;
     f32_pack := IEEE.f32_of_f64;
     float_of_int := IEEE.f64_of_int;
     float_0 := 0;
     float_1 := 0x3FF0000000000000 |}.

(** ** Vocabulary of the properties *)

Section Vocabulary.
Context {FC : FloatCodec}.

(** The [n] bytes of [data] from [off] on. *)
Definition slice (data : list byte) (off n : nat) : list byte :=
  firstn n (skipn off data).

(** The unsigned integer stored in the [n] bytes at [off]. *)
Definition word_at (big : bool) (data : list byte) (off n : nat) : Z :=
  uint_value big (slice data off n).

(** The sounds in order, as long as every one is produced. *)
Fixpoint collect {A B : Type} (f : A -> result B) (l : list A) : result (list B) :=
  match l with
  | [] => Ok []
  | a :: l' =>
      b <- f a ;;
      bs <- collect f l' ;;
      Ok (b :: bs)
  end.

(** The first [n] slots of 32 bytes of [data]. *)
Fixpoint chunks (n : nat) (data : list byte) : list (list byte) :=
  match n with
  | O => []
  | S n' => firstn 32 data :: chunks n' (skipn 32 data)
  end.

(** The 32 bytes of a sound. *)
Definition Sound_bytes (lookup : JAUSoundIdTable) (big : bool)
    (s : JAUSoundAnimationSound) : result (list byte) :=
  sound_id <- find_id lookup (sound s) ;;
  pack_codes big sound_codes
    [PInt sound_id; start_frame s; unk8 s; pitch s; flags s;
     volume s; pitch_factor s; unk16 s; pan s; volume_factor s; unk19 s].

(** A dict has no key twice. *)
Fixpoint is_dict (d : JAUSoundIdTable) : bool :=
  match d with
  | [] => true
  | (k, _) :: d' => negb (existsb (fun kv => String.eqb (fst kv) k) d') && is_dict d'
  end.

(** An [int] that fits [n] bytes. *)
Definition is_uint (n : Z) (v : pyval) : bool :=
  match v with
  | PInt z => (0 <=? z) && (z <? 2 ^ (8 * n))
  | _ => false
  end.

(** A [float] that has a binary32 image. *)
Definition is_f32 (v : pyval) : bool :=
  match v with
  | PFloat x => match f32_pack x with Some _ => true | None => false end
  | _ => false
  end.

(** A name the table maps to an ID of 32 bits. *)
Definition is_sound_name (lookup : JAUSoundIdTable) (v : pyval) : bool :=
  match v with
  | PStr name =>
      match dict_get lookup name with
      | Ok sound_id => (0 <=? sound_id) && (sound_id <? 2 ^ 32)
      | Raise _ => false
      end
  | _ => false
  end.

(** The attributes of a sound other than its name have the types of the
    data model. *)
Definition well_typed_fields (s : JAUSoundAnimationSound) : bool :=
  is_f32 (start_frame s) && is_f32 (unk8 s) && is_f32 (pitch s)
  && is_uint 4 (flags s)
  && is_uint 1 (volume s) && is_uint 1 (pitch_factor s) && is_uint 1 (unk16 s)
  && is_uint 1 (pan s) && is_uint 1 (volume_factor s) && is_uint 1 (unk19 s).

(** A sound of the data model whose name the table resolves. *)
Definition well_typed_sound (lookup : JAUSoundIdTable)
    (s : JAUSoundAnimationSound) : bool :=
  is_sound_name lookup (sound s) && well_typed_fields s.

Definition well_typed (a : JAUSoundAnimation) : bool :=
  is_uint 1 (unk2 a) && is_uint 1 (unk3 a)
  && forallb (well_typed_sound (_lookup_ a)) (sounds a).

(** A 32-bit pattern the codec writes back as it read it. *)
Definition f32_stable (w : Z) : Prop :=
  f32_pack (f32_unpack w) = Some w.

(** A float the codec reads back as it wrote it. *)
Definition f32_faithful (v : pyval) : Prop :=
  match v with
  | PFloat x => exists w, f32_pack x = Some w /\ f32_unpack (w mod 2 ^ 32) = x
  | _ => True
  end.

Definition faithful_floats (s : JAUSoundAnimationSound) : Prop :=
  f32_faithful (start_frame s) /\ f32_faithful (unk8 s) /\ f32_faithful (pitch s).

(** Bytes the format writes back as it read them: pad bytes are zero and
    float patterns are stable. *)
Fixpoint canonical (big : bool) (cs : list fmtcode) (bs : list byte) : Prop :=
  match cs with
  | [] => True
  | c :: cs' =>
      match c with
      | c_x => firstn 1 bs = [Byte.x00]
      | c_f => f32_stable (uint_value big (firstn 4 bs))
      | _ => True
      end /\ canonical big cs' (skipn (code_size c) bs)
  end.

(** The pad bytes of a record are zero. *)
Fixpoint pads_zero (cs : list fmtcode) (bs : list byte) : Prop :=
  match cs with
  | [] => True
  | c :: cs' =>
      match c with
      | c_x => firstn 1 bs = [Byte.x00]
      | _ => True
      end /\ pads_zero cs' (skipn (code_size c) bs)
  end.

(** A value the code reads back as it wrote it. *)
Definition wire_value (c : fmtcode) (v : pyval) : Prop :=
  match c with
  | c_x => True
  | c_B => is_uint 1 v = true
  | c_H => is_uint 2 v = true
  | c_I => is_uint 4 v = true
  | c_f => (exists x, v = PFloat x) /\ f32_faithful v
  end.

Fixpoint wire_values (cs : list fmtcode) (vs : list pyval) : Prop :=
  match cs with
  | [] => vs = []
  | c_x :: cs' => wire_values cs' vs
  | c :: cs' =>
      match vs with
      | [] => False
      | v :: vs' => wire_value c v /\ wire_values cs' vs'
      end
  end.

(** A header the codec writes back as it read it: the four pad bytes are
    zero. *)
Definition canonical_header (hdr : list byte) : Prop :=
  slice hdr 4 4 = repeat Byte.x00 4.

(** A slot the codec writes back as it read it: the six pad bytes are zero
    and the three float patterns are stable. *)
Definition canonical_slot (big : bool) (slot : list byte) : Prop :=
  slice slot 26 6 = repeat Byte.x00 6
  /\ f32_stable (word_at big slot 4 4)
  /\ f32_stable (word_at big slot 8 4)
  /\ f32_stable (word_at big slot 12 4).

(** A sound read from 32 bytes. *)
Definition decoded (lookup : JAUSoundIdTable) (s : JAUSoundAnimationSound) : Prop :=
  exists (big : bool) (slot : list byte),
    length slot = 32%nat /\ Sound_unpack slot 0 big lookup = Ok s.

(** The sound ID stored in entry [k] of the animation at [off]. *)
Definition entry_id (big : bool) (data : list byte) (off k : nat) : Z :=
  word_at big data (off + 8 + 32 * k) 4.

(** The sound of entry [k] of the animation at [off], read from its slot. *)
Definition entry_sound (t : JAUSoundIdTable) (big : bool) (data : list byte)
    (off k : nat) : result JAUSoundAnimationSound :=
  Sound_unpack (slice data (off + 8 + 32 * k) 32) 0 big t.

(** What [from_json] makes of a sound that [dump_json] wrote: the start
    frame is stored as the name and the default start frame is kept. *)
Definition reloaded (s : JAUSoundAnimationSound) : JAUSoundAnimationSound :=
  {| sound := start_frame s;
     start_frame := PFloat float_0;
     unk8 := unk8 s;
     pitch := pitch s;
     flags := flags s;
     volume := volume s;
     pitch_factor := pitch_factor s;
     unk16 := unk16 s;
     pan := pan s;
     volume_factor := volume_factor s;
     unk19 := unk19 s |}.

(** A line of the lookup file the constructor accepts. *)
Definition line_ok (field : string) : bool :=
  match split ","%char (strip is_crlf field) with
  | [_; sound_id_str] =>
      match int_of_str sound_id_str with Some _ => true | None => false end
  | _ => false
  end.

(** The number of occurrences of a character. *)
Fixpoint count_char (c : ascii) (s : string) : nat :=
  match s with
  | EmptyString => 0
  | String a s' => (if Ascii.eqb a c then 1 else 0) + count_char c s'
  end.

End Vocabulary.

(** ** Sample data

    A table, a buffer of one entry and animations, with IEEE floats. *)

Module Sample.

(** The table of the lines ["a,5"] and ["b,7"]. *)
Definition table : JAUSoundIdTable := [("a"%string, 5); ("b"%string, 7)].

(** Big-endian: one entry, [unk2 = 2], [unk3 = 3]; the sound 7 at frame
    1.0, with [unk8 = 0.0], pitch 2.0, flags 9 and the bytes 1 to 6. *)
Definition buffer : list byte :=
  map byte.of_Z
    [0; 1; 2; 3; 0; 0; 0; 0;
     0; 0; 0; 7;  0x3f; 0x80; 0; 0;  0; 0; 0; 0;  0x40; 0; 0; 0;
     0; 0; 0; 9;  1; 2; 3; 4; 5; 6;  0; 0; 0; 0; 0; 0].

(** The animation [buffer] decodes to. *)
Definition animation : JAUSoundAnimation (FC := ieee) :=
  {| _lookup_ := table;
     unk2 := PInt 2;
     unk3 := PInt 3;
     sounds :=
       [{| sound := PStr "b";
           start_frame := PFloat 0x3FF0000000000000;
           unk8 := PFloat 0;
           pitch := PFloat 0x4000000000000000;
           flags := PInt 9;
           volume := PInt 1;
           pitch_factor := PInt 2;
           unk16 := PInt 3;
           pan := PInt 4;
           volume_factor := PInt 5;
           unk19 := PInt 6 |}] |}.

(** [buffer] with a second copy of it in front and five bytes behind. *)
Definition padded_buffer : list byte :=
  buffer ++ buffer ++ map byte.of_Z [9; 9; 9; 9; 9].



(** An animation with a sound the table does not name. *)
Definition animation_with_stranger : JAUSoundAnimation (FC := ieee) :=
  {| _lookup_ := table;
     unk2 := PInt 2;
     unk3 := PInt 3;
     sounds := sounds animation ++ [Sound_init] |}.

(** The table of the line [",0"]: it names the sound of a fresh entry. *)
Definition table_of_fresh : JAUSoundIdTable := [(EmptyString, 0)].

(** 65536 fresh sounds, under a table that names them. *)
Definition crowd : JAUSoundAnimation (FC := ieee) :=
  {| _lookup_ := table_of_fresh;
     unk2 := PInt 0;
     unk3 := PInt 0;
     sounds := repeat Sound_init (Z.to_nat 65536) |}.

(** 65536 fresh sounds, under a table that does not name them. *)
Definition crowd_of_strangers : JAUSoundAnimation (FC := ieee) :=
  {| _lookup_ := table;
     unk2 := PInt 0;
     unk3 := PInt 0;
     sounds := repeat Sound_init (Z.to_nat 65536) |}.

End Sample.

(** ** Vocabulary of the further properties *)

Section FurtherVocabulary.
Context {FC : FloatCodec}.


(** The name and the ID a line of the lookup file gives, when it gives
    them. *)
Definition parse_line (field : string) : option (string * Z) :=
  match split ","%char (strip is_crlf field) with
  | [sound_name; sound_id_str] =>
      option_map (pair sound_name) (int_of_str sound_id_str)
  | _ => None
  end.

(** Every character of the string satisfies [p]. *)
Fixpoint all_chars (p : ascii -> bool) (s : string) : bool :=
  match s with
  | EmptyString => true
  | String a s' => p a && all_chars p s'
  end.

(** The keys [from_json] reads in a sound object. *)
Definition read_keys : list string :=
  ["start_frame"; "unk8"; "pitch"; "flags"; "volume"; "pitch_factor";
   "unk16"; "pan"; "volume_factor"; "unk19"]%string.

Definition has_read_keys (d : list (string * pyval)) : bool :=
  forallb (fun k => is_ok (assoc_get d k)) read_keys.

(** A value that is not a [str], a [list] or a [dict]. *)
Definition is_plain_scalar (v : pyval) : bool :=
  match v with
  | PNone | PBool _ | PInt _ | PFloat _ => true
  | _ => false
  end.

End FurtherVocabulary.

Module MoreSamples.


(** 48 bytes of 0xFF. *)
Definition blank_buffer : list byte := repeat Byte.xff 48.

(** A sound object that has no key ["sound"], and a document that holds
    it. *)
Definition nameless_sound : list (string * pyval (FC := ieee)) :=
  [("start_frame"%string, PStr "a"); ("unk8"%string, PFloat 0);
   ("pitch"%string, PFloat 0x3FF0000000000000);
   ("flags"%string, PInt 0); ("volume"%string, PInt 127);
   ("pitch_factor"%string, PInt 0); ("unk16"%string, PInt 0);
   ("pan"%string, PInt 64); ("volume_factor"%string, PInt 0);
   ("unk19"%string, PInt 0)].

Definition nameless_document : pyval (FC := ieee) :=
  PDict [("unk2"%string, PInt 1); ("unk3"%string, PInt 2);
         ("sounds"%string, PList (map PDict [nameless_sound]))].

(** The animation [from_json] makes of [nameless_document]. *)
Definition loaded_animation : JAUSoundAnimation (FC := ieee) :=
  {| _lookup_ := Sample.table;
     unk2 := PInt 1;
     unk3 := PInt 2;
     sounds :=
       [{| sound := PStr "a";
           start_frame := PFloat 0;
           unk8 := PFloat 0;
           pitch := PFloat 0x3FF0000000000000;
           flags := PInt 0;
           volume := PInt 127;
           pitch_factor := PInt 0;
           unk16 := PInt 0;
           pan := PInt 64;
           volume_factor := PInt 0;
           unk19 := PInt 0 |}] |}.

(** The sound of [Sample.animation]. *)
Definition sound_b : JAUSoundAnimationSound (FC := ieee) :=
  {| sound := PStr "b";
     start_frame := PFloat 0x3FF0000000000000;
     unk8 := PFloat 0;
     pitch := PFloat 0x4000000000000000;
     flags := PInt 9;
     volume := PInt 1;
     pitch_factor := PInt 2;
     unk16 := PInt 3;
     pan := PInt 4;
     volume_factor := PInt 5;
     unk19 := PInt 6 |}.

(** [Sample.buffer] with the start frame 7F800001, a signalling NaN. *)
Definition snan_buffer : list byte :=
  map byte.of_Z
    [0; 1; 2; 3; 0; 0; 0; 0;
     0; 0; 0; 7;  0x7f; 0x80; 0; 1;  0; 0; 0; 0;  0x40; 0; 0; 0;
     0; 0; 0; 9;  1; 2; 3; 4; 5; 6;  0; 0; 0; 0; 0; 0].

(** [snan_buffer] with the quiet bit of the start frame set: 7FC00001. *)
Definition quieted_buffer : list byte :=
  map byte.of_Z
    [0; 1; 2; 3; 0; 0; 0; 0;
     0; 0; 0; 7;  0x7f; 0xc0; 0; 1;  0; 0; 0; 0;  0x40; 0; 0; 0;
     0; 0; 0; 9;  1; 2; 3; 4; 5; 6;  0; 0; 0; 0; 0; 0].

(** The entry of [Sample.buffer], then its header: 40 bytes. *)
Definition wrapped_buffer : list byte :=
  skipn 8 Sample.buffer ++ firstn 8 Sample.buffer.

End MoreSamples.

(** ** The [struct] module: facts *)

(** A list of known length, spelled out element by element. *)
Tactic Notation "explode" ident(l) "of" hyp(H) "into" integer(n) :=
  do n (destruct l as [|? l]; [discriminate H|]);
  destruct l; [clear H | discriminate H].

Section StructFacts.
Context {FC : FloatCodec}.

Lemma bind_ok {A B : Type} (c : result A) (k : A -> result B) (b : B) :
  (x <- c ;; k x) = Ok b -> exists a, c = Ok a /\ k a = Ok b.
Proof.
  destruct c as [a | e]; simpl; intros H; [eauto | discriminate].
Qed.

Lemma length_uint_bytes (big : bool) (n : nat) (z : Z) :
  length (uint_bytes big n z) = n.
Proof.
  unfold uint_bytes; destruct big;
    rewrite ?length_rev; apply length_le_split.
Qed.

Lemma uint_value_bytes (big : bool) (n : nat) (z : Z) :
  uint_value big (uint_bytes big n z) = z mod 2 ^ (8 * Z.of_nat n).
Proof.
  unfold uint_value, uint_bytes; destruct big;
    rewrite ?rev_involutive, le_combine_split; f_equal; f_equal; lia.
Qed.

Lemma uint_bytes_value (big : bool) (bs : list byte) :
  uint_bytes big (length bs) (uint_value big bs) = bs.
Proof.
  unfold uint_value, uint_bytes; destruct big.
  - rewrite <- (length_rev bs), split_le_combine. apply rev_involutive.
  - apply split_le_combine.
Qed.

Lemma uint_bytes_value' (big : bool) (n : nat) (bs : list byte) :
  length bs = n -> uint_bytes big n (uint_value big bs) = bs.
Proof. intros <-. apply uint_bytes_value. Qed.

Lemma uint_value_bound (big : bool) (bs : list byte) :
  0 <= uint_value big bs < 2 ^ (8 * Z.of_nat (length bs)).
Proof.
  unfold uint_value; destruct big.
  - rewrite <- (length_rev bs). apply le_combine_bound.
  - apply le_combine_bound.
Qed.

Lemma length_slice (data : list byte) (off n : nat) :
  (off + n <= length data)%nat -> length (slice data off n) = n.
Proof.
  intros H. unfold slice. rewrite length_firstn, length_skipn. lia.
Qed.

Lemma slice_app (data : list byte) (off n m : nat) :
  slice data off (n + m) = slice data off n ++ slice data (off + n) m.
Proof.
  unfold slice.
  rewrite <- (firstn_skipn n (firstn (n + m) (skipn off data))) at 1.
  f_equal.
  - rewrite firstn_firstn. f_equal. lia.
  - rewrite skipn_firstn_comm, skipn_skipn. f_equal; [lia | f_equal; lia].
Qed.

Lemma slice_slice (data : list byte) (off n i m : nat) :
  (i + m <= n)%nat ->
  slice (slice data off n) i m = slice data (off + i) m.
Proof.
  intros H. unfold slice.
  rewrite skipn_firstn_comm, firstn_firstn, skipn_skipn.
  f_equal; [lia | f_equal; lia].
Qed.

Lemma slice_all (data : list byte) :
  slice data 0 (length data) = data.
Proof. unfold slice. simpl. apply firstn_all. Qed.

Lemma pack_uint_length (big : bool) (n : nat) (v : pyval) (bs : list byte) :
  pack_uint big n v = Ok bs -> length bs = n.
Proof.
  unfold pack_uint. destruct (as_index v); [|discriminate].
  destruct (_ && _); [|discriminate].
  intros [= <-]. apply length_uint_bytes.
Qed.

Lemma pack_code_length (big : bool) (c : fmtcode) (v : pyval) (bs : list byte) :
  pack_code big c v = Ok bs -> length bs = code_size c.
Proof.
  destruct c; simpl; try apply pack_uint_length.
  - intros [= <-]. reflexivity.
  - unfold pack_float. destruct (as_double v); [|discriminate].
    destruct (f32_pack p); [|destruct (is_pylong v); discriminate].
    intros [= <-]. apply length_uint_bytes.
Qed.

Lemma pack_codes_length (big : bool) (cs : list fmtcode) :
  forall (vs : list pyval) (bs : list byte),
    pack_codes big cs vs = Ok bs -> length bs = codes_size cs.
Proof.
  induction cs as [|c cs IH]; intros vs bs H.
  - injection H as <-. reflexivity.
  - assert (Hx : forall rest0, (rest <- pack_codes big cs rest0 ;; Ok (Byte.x00 :: rest)) = Ok bs ->
                    length bs = codes_size (c_x :: cs)).
    { intros rest0 H0. apply bind_ok in H0 as (rest & Hr & [= <-]).
      simpl. f_equal. eauto. }
    assert (Hv : c <> c_x ->
                 match vs with
                 | [] => Raise StructError
                 | v :: vs' =>
                     b <- pack_code big c v ;;
                     rest <- pack_codes big cs vs' ;; Ok (b ++ rest)
                 end = Ok bs -> length bs = codes_size (c :: cs)).
    { intros _ H0. destruct vs as [|v vs]; [discriminate|].
      apply bind_ok in H0 as (b & Hb & H0).
      apply bind_ok in H0 as (rest & Hr & [= <-]).
      rewrite length_app. simpl. f_equal; eauto using pack_code_length. }
    destruct c; simpl in H; first [ now apply (Hx vs) | apply Hv; [discriminate | exact H] ].
Qed.

Lemma locate_inside (len size off : Z) :
  0 <= off -> off + size <= len -> locate len size off = Some off.
Proof.
  intros H0 H1. unfold locate.
  destruct (off <? 0) eqn:E; [lia|].
  destruct (len - off <? size) eqn:E'; [lia | reflexivity].
Qed.


(** Where [locate] finds room, the record lies within the buffer. *)
Lemma locate_some (len size off o : Z) :
  0 <= len -> 0 <= size -> locate len size off = Some o -> 0 <= o /\ o + size <= len.
Proof.
  intros Hl Hs. unfold locate.
  destruct (off <? 0) eqn:E.
  - destruct (0 <? off + size) eqn:E1; [discriminate|].
    destruct (off + len <? 0) eqn:E2; [discriminate|].
    destruct (len - (off + len) <? size) eqn:E3; [discriminate|].
    intros [= <-]. lia.
  - destruct (len - off <? size) eqn:E1; [discriminate|].
    intros [= <-]. lia.
Qed.

Lemma unpack_from_inside (st : Struct) (data : list byte) (off : nat) :
  (off + codes_size (s_codes st) <= length data)%nat ->
  unpack_from st data (Z.of_nat off)
  = Ok (unpack_codes (s_big st) (s_codes st) (slice data off (codes_size (s_codes st)))).
Proof.
  intros H. unfold unpack_from, s_size.
  rewrite locate_inside by lia. rewrite Nat2Z.id. reflexivity.
Qed.


End StructFacts.

(** ** Round trips of one record *)

Section RecordRoundTrip.
Context {FC : FloatCodec}.

Lemma pack_uint_unpack (big : bool) (n : nat) (bs : list byte) :
  length bs = n ->
  pack_uint big n (PInt (uint_value big bs)) = Ok bs.
Proof.
  intros <-. unfold pack_uint, as_index.
  pose proof (uint_value_bound big bs) as Hb.
  destruct (0 <=? uint_value big bs) eqn:E0; [|lia].
  destruct (uint_value big bs <? 2 ^ (8 * Z.of_nat (length bs))) eqn:E1; [|lia].
  simpl. now rewrite uint_bytes_value.
Qed.

(** Bytes, then values, then the same bytes. *)
Lemma pack_unpack_codes (big : bool) (cs : list fmtcode) :
  forall bs : list byte,
    length bs = codes_size cs ->
    canonical big cs bs ->
    pack_codes big cs (unpack_codes big cs bs) = Ok bs.
Proof.
  induction cs as [|c cs IH]; intros bs Hlen Hcan.
  - destruct bs; [reflexivity | discriminate].
  - destruct Hcan as [Hc Hrest].
    assert (Hl1 : length (firstn (code_size c) bs) = code_size c).
    { rewrite length_firstn. simpl in Hlen. lia. }
    assert (Hl2 : length (skipn (code_size c) bs) = codes_size cs).
    { rewrite length_skipn. simpl in Hlen. lia. }
    specialize (IH _ Hl2 Hrest).
    pose proof (firstn_skipn (code_size c) bs) as Hsplit.
    destruct c;
      cbn [unpack_codes pack_codes pack_code unpack_code code_size canonical] in *.
    + rewrite IH. cbn [bind]. rewrite <- Hsplit at 2. now rewrite Hc.
    + rewrite pack_uint_unpack by assumption. cbn [bind]. rewrite IH. cbn [bind].
      now rewrite Hsplit.
    + rewrite pack_uint_unpack by assumption. cbn [bind]. rewrite IH. cbn [bind].
      now rewrite Hsplit.
    + rewrite pack_uint_unpack by assumption. cbn [bind]. rewrite IH. cbn [bind].
      now rewrite Hsplit.
    + unfold pack_float, as_double. unfold f32_stable in Hc. rewrite Hc.
      rewrite (uint_bytes_value' big 4) by assumption. cbn [bind]. rewrite IH.
      cbn [bind]. now rewrite Hsplit.
Qed.

Lemma unpack_uint_pack (big : bool) (n : nat) (v : pyval) :
  is_uint (Z.of_nat n) v = true ->
  exists bs, pack_uint big n v = Ok bs /\ length bs = n /\ PInt (uint_value big bs) = v.
Proof.
  unfold is_uint, pack_uint. destruct v; try discriminate. cbn [as_index].
  intros H. rewrite H. eexists; split; [reflexivity|]. split.
  - apply length_uint_bytes.
  - rewrite uint_value_bytes. f_equal. apply Z.mod_small.
    apply andb_prop in H as [H0 H1].
    apply Z.leb_le in H0. apply Z.ltb_lt in H1. lia.
Qed.

Lemma unpack_code_pack (big : bool) (c : fmtcode) (v : pyval) :
  c <> c_x ->
  wire_value c v ->
  exists bs, pack_code big c v = Ok bs /\ length bs = code_size c
             /\ unpack_code big c bs = v.
Proof.
  intros Hc Hv. destruct c; simpl in *; try congruence.
  - apply (unpack_uint_pack big 1); assumption.
  - apply (unpack_uint_pack big 2); assumption.
  - apply (unpack_uint_pack big 4); assumption.
  - destruct Hv as [[x ->] (w & Hw & Hx)].
    unfold pack_float. simpl. rewrite Hw.
    eexists; split; [reflexivity|]. split; [apply length_uint_bytes|].
    rewrite uint_value_bytes. change (8 * Z.of_nat 4) with 32. now rewrite Hx.
Qed.

(** Values, then bytes, then the same values. *)
Lemma unpack_pack_codes (big : bool) (cs : list fmtcode) :
  forall vs : list pyval,
    wire_values cs vs ->
    exists bs, pack_codes big cs vs = Ok bs /\ unpack_codes big cs bs = vs.
Proof.
  induction cs as [|c cs IH]; intros vs Hw.
  - simpl in Hw. subst. exists []. split; reflexivity.
  - assert (Hv : c <> c_x ->
                 match vs with
                 | [] => False
                 | v :: vs' => wire_value c v /\ wire_values cs vs'
                 end ->
                 exists bs,
                   match vs with
                   | [] => Raise StructError
                   | v :: vs' =>
                       b <- pack_code big c v ;;
                       rest <- pack_codes big cs vs' ;; Ok (b ++ rest)
                   end = Ok bs
                   /\ unpack_code big c (firstn (code_size c) bs)
                        :: unpack_codes big cs (skipn (code_size c) bs) = vs).
    { intros Hc H. destruct vs as [|v vs]; [contradiction|]. destruct H as [H1 H2].
      destruct (unpack_code_pack big c v Hc H1) as (b & Hb & Hbl & Hbv).
      destruct (IH _ H2) as (rest & Hr & Hrv).
      exists (b ++ rest). rewrite Hb. simpl. rewrite Hr. simpl. split; [reflexivity|].
      rewrite <- Hbl at 1. rewrite firstn_app, firstn_all, Nat.sub_diag. simpl.
      rewrite app_nil_r, Hbv. f_equal.
      rewrite <- Hbl. rewrite skipn_app, skipn_all, Nat.sub_diag. simpl. exact Hrv. }
    destruct c; simpl in Hw |- *;
      try (destruct (Hv ltac:(discriminate) Hw) as (bs & H1 & H2);
           exists bs; split; [exact H1 | exact H2]).
    destruct (IH _ Hw) as (rest & Hr & Hrv).
    exists (Byte.x00 :: rest). rewrite Hr. simpl. split; [reflexivity | exact Hrv].
Qed.

(** What a record read from bytes holds. *)
Lemma unpack_uint_is_uint (big : bool) (n : nat) (bs : list byte) :
  length bs = n -> is_uint (Z.of_nat n) (PInt (uint_value big bs)) = true.
Proof.
  intros <-. unfold is_uint. pose proof (uint_value_bound big bs).
  apply andb_true_intro. split; [apply Z.leb_le | apply Z.ltb_lt]; lia.
Qed.

End RecordRoundTrip.

(** ** The lookup table: facts *)

Section TableFacts.
Context {FC : FloatCodec}.

Lemma existsb_dict_set (d : JAUSoundIdTable) (k k0 : string) (v : Z) :
  existsb (fun kv => String.eqb (fst kv) k0) (dict_set d k v)
  = existsb (fun kv => String.eqb (fst kv) k0) d || String.eqb k k0.
Proof.
  induction d as [|[k' v'] d IH]; simpl.
  - now rewrite orb_false_r.
  - destruct (String.eqb k' k) eqn:E; simpl.
    + apply String.eqb_eq in E. subst k'.
      destruct (String.eqb k k0); simpl; [reflexivity | now rewrite orb_false_r].
    + rewrite IH. now rewrite orb_assoc.
Qed.

Lemma dict_set_is_dict (d : JAUSoundIdTable) (k : string) (v : Z) :
  is_dict d = true -> is_dict (dict_set d k v) = true.
Proof.
  induction d as [|[k' v'] d IH]; simpl; intros H.
  - reflexivity.
  - apply andb_prop in H as [H1 H2].
    destruct (String.eqb k' k) eqn:E; simpl.
    + now rewrite H1, H2.
    + rewrite existsb_dict_set, (IH H2).
      apply negb_true_iff in H1. rewrite H1. simpl.
      rewrite String.eqb_sym, E. reflexivity.
Qed.

Lemma table_add_line_is_dict (d d' : JAUSoundIdTable) (field : string) :
  is_dict d = true -> table_add_line d field = Ok d' -> is_dict d' = true.
Proof.
  intros Hd. unfold table_add_line.
  destruct (split _ _) as [|a [|b [|c l]]]; try discriminate.
  destruct (int_of_str b); [|discriminate].
  intros [= <-]. now apply dict_set_is_dict.
Qed.

Lemma table_load_is_dict (lines : list string) :
  forall d d', is_dict d = true -> table_load d lines = Ok d' -> is_dict d' = true.
Proof.
  induction lines as [|l lines IH]; simpl; intros d d' Hd H.
  - now injection H as <-.
  - apply bind_ok in H as (d1 & H1 & H2).
    eauto using table_add_line_is_dict.
Qed.

(** The constructor builds a dict. *)
Lemma init_is_dict (f : lookup_file) (t : JAUSoundIdTable) :
  JAUSoundIdTable_init f = Ok t -> is_dict t = true.
Proof.
  destruct f; simpl; [discriminate|].
  now apply table_load_is_dict.
Qed.

Lemma find_name_in (t : JAUSoundIdTable) (sound_id : Z) (name : string) :
  find_name t sound_id = Ok name -> In (name, sound_id) t.
Proof.
  induction t as [|[k v] t IH]; simpl; [discriminate|].
  destruct (v =? sound_id) eqn:E.
  - intros [= <-]. apply Z.eqb_eq in E. subst. now left.
  - intros H. right. auto.
Qed.

Lemma dict_get_in (t : JAUSoundIdTable) (name : string) (sound_id : Z) :
  is_dict t = true -> In (name, sound_id) t -> dict_get t name = Ok sound_id.
Proof.
  induction t as [|[k v] t IH]; simpl; [contradiction|].
  intros Hd Hin. apply andb_prop in Hd as [H1 H2].
  destruct Hin as [[= -> ->] | Hin].
  - now rewrite String.eqb_refl.
  - destruct (String.eqb k name) eqn:E; [|auto].
    apply String.eqb_eq in E. subst k.
    apply negb_true_iff in H1.
    assert (existsb (fun kv => String.eqb (fst kv) name) t = true) as Hex.
    { apply existsb_exists. exists (name, sound_id). split; [assumption|].
      apply String.eqb_refl. }
    congruence.
Qed.

(** The name found for an ID is mapped to that ID. *)
Lemma find_id_find_name (t : JAUSoundIdTable) (sound_id : Z) (name : string) :
  is_dict t = true ->
  find_name t sound_id = Ok name ->
  find_id t (PStr name) = Ok sound_id.
Proof.
  intros Hd H. simpl. apply dict_get_in; [assumption|]. now apply find_name_in.
Qed.

(** A lookup by ID fails with KeyError only. *)
Lemma find_name_raise (t : JAUSoundIdTable) (sound_id : Z) (e : exn) :
  find_name t sound_id = Raise e -> e = KeyError.
Proof.
  induction t as [|[k v] t IH]; simpl.
  - now intros [= <-].
  - destruct (v =? sound_id); [discriminate | assumption].
Qed.

End TableFacts.

(** ** One sound: facts *)

Section SoundFacts.
Context {FC : FloatCodec}.

Lemma sound_struct_codes (big : bool) :
  s_codes (if big then SOUND_STRUCT_BE else SOUND_STRUCT_LE) = sound_codes
  /\ s_big (if big then SOUND_STRUCT_BE else SOUND_STRUCT_LE) = big.
Proof. destruct big; split; reflexivity. Qed.

Lemma Sound_unpack_slot (slot : list byte) (big : bool) (t : JAUSoundIdTable) :
  length slot = 32%nat ->
  Sound_unpack slot 0 big t = Sound_assign t (unpack_codes big sound_codes slot).
Proof.
  intros Hlen. unfold Sound_unpack.
  change 0 with (Z.of_nat 0).
  destruct (sound_struct_codes big) as [Hc Hb].
  rewrite unpack_from_inside by (rewrite Hc; simpl; lia).
  rewrite Hc, Hb. cbn [bind].
  change (codes_size sound_codes) with 32%nat. rewrite <- Hlen.
  now rewrite slice_all.
Qed.

(** A sound is read from its 32 bytes alone. *)
Lemma Sound_unpack_inside (data : list byte) (off : nat) (big : bool)
    (t : JAUSoundIdTable) :
  (off + 32 <= length data)%nat ->
  Sound_unpack data (Z.of_nat off) big t = Sound_unpack (slice data off 32) 0 big t.
Proof.
  intros Hlen.
  rewrite Sound_unpack_slot by now apply length_slice.
  unfold Sound_unpack.
  destruct (sound_struct_codes big) as [Hc Hb].
  rewrite unpack_from_inside by (rewrite Hc; simpl; lia).
  now rewrite Hc, Hb.
Qed.


(** The sound read from a slot, by the lookup of its ID. *)
Lemma Sound_unpack_lookup (slot : list byte) (big : bool) (t : JAUSoundIdTable) :
  length slot = 32%nat ->
  match find_name t (word_at big slot 0 4) with
  | Ok name =>
      exists s, Sound_unpack slot 0 big t = Ok s /\ sound s = PStr name
  | Raise e => Sound_unpack slot 0 big t = Raise e
  end.
Proof.
  intros Hlen. rewrite Sound_unpack_slot by assumption.
  unfold word_at, slice. cbn [skipn].
  cbn [Sound_assign unpack_codes sound_codes unpack_code code_size].
  destruct (find_name t (uint_value big (firstn 4 slot))) as [name | e]; cbn [bind].
  - eexists; split; reflexivity.
  - reflexivity.
Qed.

(** Bytes, then a sound, then the same bytes. *)
Lemma Sound_bytes_unpack (slot : list byte) (big : bool) (t : JAUSoundIdTable)
    (s : JAUSoundAnimationSound) :
  is_dict t = true ->
  length slot = 32%nat ->
  canonical big sound_codes slot ->
  Sound_unpack slot 0 big t = Ok s ->
  Sound_bytes t big s = Ok slot.
Proof.
  intros Hd Hlen Hcan H. rewrite Sound_unpack_slot in H by assumption.
  pose proof (pack_unpack_codes big sound_codes slot Hlen Hcan) as Hp.
  cbn [Sound_assign unpack_codes sound_codes unpack_code code_size] in H, Hp.
  destruct (find_name t (uint_value big (firstn 4 slot))) as [name | e] eqn:Hn;
    cbn [bind] in H; [|discriminate].
  injection H as <-. unfold Sound_bytes. cbn [sound start_frame unk8 pitch flags
    volume pitch_factor unk16 pan volume_factor unk19].
  rewrite (find_id_find_name _ _ _ Hd Hn). cbn [bind]. exact Hp.
Qed.

(** A sound read from bytes, then its bytes, then the same sound. *)
Lemma Sound_unpack_bytes (slot : list byte) (big0 big : bool) (t : JAUSoundIdTable)
    (s : JAUSoundAnimationSound) :
  is_dict t = true ->
  length slot = 32%nat ->
  Sound_unpack slot 0 big0 t = Ok s ->
  faithful_floats s ->
  exists bs, Sound_bytes t big s = Ok bs /\ length bs = 32%nat
             /\ Sound_unpack bs 0 big t = Ok s.
Proof.
  intros Hd Hlen H Hf. rewrite Sound_unpack_slot in H by assumption.
  explode slot of Hlen into 32.
  cbn [Sound_assign unpack_codes sound_codes unpack_code code_size firstn skipn] in H.
  match type of H with
  | context [find_name t ?i] => destruct (find_name t i) as [name | e] eqn:Hn
  end; cbn [bind] in H; [|discriminate].
  injection H as <-. destruct Hf as (Hf1 & Hf2 & Hf3).
  cbn [start_frame unk8 pitch] in Hf1, Hf2, Hf3.
  unfold Sound_bytes. cbn [sound start_frame unk8 pitch flags
    volume pitch_factor unk16 pan volume_factor unk19].
  rewrite (find_id_find_name _ _ _ Hd Hn). cbn [bind].
  match goal with
  | |- exists bs, pack_codes _ _ ?vs = _ /\ _ =>
      destruct (unpack_pack_codes big sound_codes vs) as (bs & Hp & Hu)
  end.
  { cbn [wire_values sound_codes wire_value].
    repeat split; eauto;
      first [ apply (unpack_uint_is_uint big0 4) | apply (unpack_uint_is_uint big0 1) ];
      reflexivity. }
  exists bs. split; [exact Hp|].
  pose proof (pack_codes_length _ _ _ _ Hp) as Hl. split; [exact Hl|].
  rewrite Sound_unpack_slot by exact Hl. rewrite Hu.
  cbn [Sound_assign]. rewrite Hn. reflexivity.
Qed.

Lemma Sound_bytes_length (t : JAUSoundIdTable) (big : bool)
    (s : JAUSoundAnimationSound) (bs : list byte) :
  Sound_bytes t big s = Ok bs -> length bs = 32%nat.
Proof.
  unfold Sound_bytes. intros H. apply bind_ok in H as (i & _ & H).
  now apply pack_codes_length in H.
Qed.

End SoundFacts.

(** ** Sequences of sounds: facts *)

Section LoopFacts.
Context {FC : FloatCodec}.

Lemma collect_length {A B : Type} (f : A -> result B) (l : list A) :
  forall bs, collect f l = Ok bs -> length bs = length l.
Proof.
  induction l as [|a l IH]; simpl; intros bs H.
  - now injection H as <-.
  - apply bind_ok in H as (b & _ & H). apply bind_ok in H as (bs' & H & [= <-]).
    simpl. f_equal. auto.
Qed.

Lemma collect_ext {A B : Type} (f g : A -> result B) (l : list A) :
  (forall a, In a l -> f a = g a) -> collect f l = collect g l.
Proof.
  induction l as [|a l IH]; simpl; intros H; [reflexivity|].
  rewrite (H a) by now left. rewrite IH by auto. reflexivity.
Qed.

(** Where every failure is the exception [e] and one element fails, the
    outcome is [e]. *)
Lemma collect_raise_only {A B : Type} (f : A -> result B) (l : list A) (e : exn) :
  (forall x e', In x l -> f x = Raise e' -> e' = e) ->
  (exists a, In a l /\ is_ok (f a) = false) ->
  collect f l = Raise e.
Proof.
  induction l as [|x l IH]; intros H (a & Hin & Ha); [contradiction|].
  simpl. destruct (f x) as [b | e'] eqn:Hx; simpl.
  - destruct Hin as [-> | Hin]; [rewrite Hx in Ha; discriminate|].
    rewrite IH; [reflexivity | intros; eapply H; eauto; now right | eauto].
  - f_equal. eapply H; [now left | eassumption].
Qed.

Lemma length_chunks (n : nat) : forall data, length (chunks n data) = n.
Proof. induction n; simpl; intros; [reflexivity | f_equal; auto]. Qed.

Lemma concat_chunks (n : nat) :
  forall data, concat (chunks n data) = firstn (32 * n) data.
Proof.
  induction n as [|n IH]; intros data.
  - reflexivity.
  - cbn [chunks concat]. rewrite IH.
    replace (32 * S n)%nat with (32 + 32 * n)%nat by lia.
    change (firstn 32 data) with (slice data 0 32).
    change (firstn (32 + 32 * n) data) with (slice data 0 (32 + 32 * n)).
    rewrite slice_app. reflexivity.
Qed.

Lemma Forall_chunks (n : nat) :
  forall data, (32 * n <= length data)%nat ->
               Forall (fun slot => length slot = 32%nat) (chunks n data).
Proof.
  induction n as [|n IH]; intros data H; cbn [chunks]; constructor.
  - rewrite length_firstn. lia.
  - apply IH. rewrite length_skipn. lia.
Qed.

Lemma nth_chunks (n : nat) :
  forall data k, (k < n)%nat -> nth k (chunks n data) [] = slice data (32 * k) 32.
Proof.
  induction n as [|n IH]; intros data k H; [lia|].
  destruct k as [|k]; cbn [chunks nth].
  - reflexivity.
  - rewrite IH by lia. unfold slice. rewrite skipn_skipn. do 2 f_equal. lia.
Qed.

(** A buffer from [off] on: [n] slots, then the rest. *)
Lemma buffer_chunks (data : list byte) (off n : nat) :
  data = firstn off data
         ++ concat (chunks n (skipn off data))
         ++ skipn (off + 32 * n) data.
Proof.
  rewrite concat_chunks.
  rewrite <- (firstn_skipn off data) at 1. f_equal.
  rewrite <- (firstn_skipn (32 * n) (skipn off data)) at 1. f_equal.
  rewrite skipn_skipn. f_equal. lia.
Qed.

Lemma slice_middle (pre mid post : list byte) :
  slice (pre ++ mid ++ post) (length pre) (length mid) = mid.
Proof.
  unfold slice. rewrite skipn_app, skipn_all, Nat.sub_diag. simpl.
  rewrite firstn_app, firstn_all, Nat.sub_diag. simpl. apply app_nil_r.
Qed.

(** A sound is read from its slot, whatever surrounds it. *)
Lemma Sound_unpack_app (pre slot post : list byte) (big : bool)
    (t : JAUSoundIdTable) :
  length slot = 32%nat ->
  Sound_unpack (pre ++ slot ++ post) (Z.of_nat (length pre)) big t
  = Sound_unpack slot 0 big t.
Proof.
  intros Hlen. rewrite Sound_unpack_inside.
  - rewrite <- Hlen. now rewrite slice_middle.
  - rewrite !length_app. lia.
Qed.

(** The loop of [_unpack_] over slots that lie in the buffer: the sounds of
    the slots, then the remaining rounds. *)
Lemma unpack_loop_slots (t : JAUSoundIdTable) (big : bool) (slots : list (list byte)) :
  forall (pre post : list byte) (m : nat) (acc : list JAUSoundAnimationSound),
    Forall (fun slot => length slot = 32%nat) slots ->
    unpack_loop t (pre ++ concat slots ++ post) big (length slots + m)
      (Z.of_nat (length pre)) acc
    = (ss <- collect (fun slot => Sound_unpack slot 0 big t) slots ;;
       unpack_loop t (pre ++ concat slots ++ post) big m
         (Z.of_nat (length pre + 32 * length slots)) (acc ++ ss)).
Proof.
  induction slots as [|slot slots IH]; intros pre post m acc Hall.
  - cbn [length collect bind concat Nat.add]. rewrite app_nil_r.
    do 2 f_equal. lia.
  - inversion Hall as [|? ? Hslot Hall']; subst.
    cbn [length Nat.add unpack_loop collect concat].
    rewrite <- (app_assoc slot (concat slots) post).
    rewrite Sound_unpack_app by assumption.
    destruct (Sound_unpack slot 0 big t) as [s | e]; cbn [bind]; [|reflexivity].
    replace (pre ++ slot ++ concat slots ++ post)
      with ((pre ++ slot) ++ concat slots ++ post) by now rewrite <- app_assoc.
    replace (Z.of_nat (length pre) + 32) with (Z.of_nat (length (pre ++ slot)))
      by (rewrite length_app; lia).
    rewrite IH by assumption.
    destruct (collect _ slots) as [ss | e]; cbn [bind]; [|reflexivity].
    f_equal;
      try (rewrite length_app; cbn [length]; f_equal; lia);
      try (now rewrite <- app_assoc).
Qed.

(** [_pack_] writes the bytes of the sound at its offset. *)
Lemma Sound_pack_inside (s : JAUSoundAnimationSound) (data : list byte) (off : nat)
    (big : bool) (t : JAUSoundIdTable) :
  (off + 32 <= length data)%nat ->
  Sound_pack s data (Z.of_nat off) big t
  = (bs <- Sound_bytes t big s ;;
     Ok (firstn off data ++ bs ++ skipn (off + 32) data)).
Proof.
  intros Hlen. unfold Sound_pack, Sound_bytes.
  destruct (find_id t (sound s)) as [i | e]; cbn [bind]; [|reflexivity].
  unfold pack_into, s_size.
  destruct (sound_struct_codes big) as [-> ->].
  cbn [length codes_len sound_codes Nat.eqb negb].
  rewrite locate_inside by (simpl; lia).
  rewrite Nat2Z.id. reflexivity.
Qed.

(** The loop of [makebin] over a buffer whose slots are still blank. *)
Lemma pack_loop_bytes (t : JAUSoundIdTable) (big : bool)
    (ss : list JAUSoundAnimationSound) :
  forall done : list byte,
    pack_loop t big ss (Z.of_nat (length done))
      (done ++ repeat Byte.x00 (length ss * 32))
    = (es <- collect (Sound_bytes t big) ss ;; Ok (done ++ concat es)).
Proof.
  induction ss as [|s ss IH]; intros done.
  - cbn. now rewrite !app_nil_r.
  - cbn [pack_loop collect length].
    rewrite Sound_pack_inside
      by (rewrite length_app, repeat_length; lia).
    destruct (Sound_bytes t big s) as [bs | e] eqn:Hs; cbn [bind]; [|reflexivity].
    pose proof (Sound_bytes_length _ _ _ _ Hs) as Hl.
    rewrite firstn_app, firstn_all, Nat.sub_diag. cbn [firstn]. rewrite app_nil_r.
    rewrite skipn_app.
    rewrite (skipn_all2 done) by lia.
    replace (length done + 32 - length done)%nat with 32%nat by lia.
    change (S (length ss) * 32)%nat with (32 + length ss * 32)%nat.
    rewrite repeat_app, skipn_app, repeat_length, Nat.sub_diag.
    rewrite (skipn_all2 (repeat Byte.x00 32)) by (rewrite repeat_length; lia).
    cbn [skipn app].
    replace (Z.of_nat (length done) + 32) with (Z.of_nat (length (done ++ bs)))
      by (rewrite length_app; lia).
    rewrite (app_assoc done bs). rewrite IH.
    destruct (collect (Sound_bytes t big) ss); cbn [bind concat]; [|reflexivity].
    now rewrite <- !app_assoc.
Qed.

End LoopFacts.

(** ** Animations: facts *)

Section AnimationFacts.
Context {FC : FloatCodec}.

Lemma animation_struct_codes (big : bool) :
  s_codes (if big then ANIMATION_STRUCT_BE else ANIMATION_STRUCT_LE) = animation_codes
  /\ s_big (if big then ANIMATION_STRUCT_BE else ANIMATION_STRUCT_LE) = big.
Proof. destruct big; split; reflexivity. Qed.

Lemma word_at_slice (big : bool) (data : list byte) (off n i m : nat) :
  (i + m <= n)%nat ->
  word_at big (slice data off n) i m = word_at big data (off + i) m.
Proof. intros H. unfold word_at. now rewrite slice_slice. Qed.

Lemma slice_skipn (data : list byte) (a off n : nat) :
  slice (skipn a data) off n = slice data (a + off) n.
Proof. unfold slice. rewrite skipn_skipn. do 2 f_equal. lia. Qed.

Lemma canonical_of_header (big : bool) (hdr : list byte) :
  length hdr = 8%nat -> canonical_header hdr -> canonical big animation_codes hdr.
Proof.
  intros Hlen Hc. explode hdr of Hlen into 8.
  unfold canonical_header, slice in Hc. cbn in Hc. injection Hc as -> -> -> ->.
  cbn. tauto.
Qed.

Lemma canonical_of_slot (big : bool) (slot : list byte) :
  length slot = 32%nat -> canonical_slot big slot -> canonical big sound_codes slot.
Proof.
  intros Hlen (Hc & H1 & H2 & H3). explode slot of Hlen into 32.
  unfold word_at, slice in *. cbn [skipn firstn repeat] in *.
  injection Hc as -> -> -> -> -> ->.
  cbn [canonical sound_codes code_size skipn firstn]. tauto.
Qed.

(** [makebin]: the bytes of the header, then the bytes of the sounds. *)
Lemma makebin_bytes (a : JAUSoundAnimation) (big : bool) :
  makebin a big
  = (h <- pack_codes big animation_codes
            [PInt (Z.of_nat (length (sounds a))); unk2 a; unk3 a] ;;
     es <- collect (Sound_bytes (_lookup_ a) big) (sounds a) ;;
     Ok (h ++ concat es)).
Proof.
  unfold makebin, pack_into, s_size.
  destruct (animation_struct_codes big) as [-> ->].
  cbn [length codes_len animation_codes Nat.eqb negb].
  rewrite locate_inside by (rewrite ?repeat_length; simpl; lia).
  destruct (pack_codes big _ _) as [h | e] eqn:Hh; cbn [bind]; [|reflexivity].
  pose proof (pack_codes_length _ _ _ _ Hh) as Hl.
  change (codes_size animation_codes) with 8%nat in Hl |- *.
  change (Z.to_nat 0) with 0%nat. cbn [firstn app].
  change (0 + 8)%nat with 8%nat.
  rewrite repeat_app.
  rewrite skipn_app, repeat_length, Nat.sub_diag.
  rewrite (skipn_all2 (repeat Byte.x00 8)) by (rewrite repeat_length; lia).
  cbn [skipn app].
  replace 8 with (Z.of_nat (length h)) by (rewrite Hl; reflexivity).
  apply pack_loop_bytes.
Qed.


(** [from_buffer] with the header in the buffer: the header is read, then
    the loop runs. *)
Lemma from_buffer_inside (t : JAUSoundIdTable) (data : list byte) (off : nat)
    (big : bool) :
  (off + 8 <= length data)%nat ->
  from_buffer t data (Z.of_nat off) big
  = (ss <- unpack_loop t data big (Z.to_nat (word_at big data off 2))
             (Z.of_nat off + 8) [] ;;
     Ok {| _lookup_ := t;
           unk2 := PInt (word_at big data (off + 2) 1);
           unk3 := PInt (word_at big data (off + 3) 1);
           sounds := ss |}).
Proof.
  intros H. unfold from_buffer, Animation_unpack.
  destruct (animation_struct_codes big) as [Hc Hb].
  rewrite unpack_from_inside by (rewrite Hc; simpl; lia).
  rewrite Hc, Hb. change (codes_size animation_codes) with 8%nat.
  rewrite <- (Nat.add_0_r off) at 2.
  rewrite <- !(word_at_slice big data off 8) by lia.
  assert (Hl : length (slice data off 8) = 8%nat) by (apply length_slice; lia).
  generalize dependent (slice data off 8). intros hdr Hl.
  explode hdr of Hl into 8. reflexivity.
Qed.

(** [from_buffer] on a buffer laid out as a header and slots. *)
Lemma from_buffer_slots (t : JAUSoundIdTable) (big : bool)
    (pre hdr : list byte) (slots : list (list byte)) (post : list byte) (m : nat) :
  length hdr = 8%nat ->
  Forall (fun slot => length slot = 32%nat) slots ->
  Z.to_nat (word_at big hdr 0 2) = (length slots + m)%nat ->
  from_buffer t (pre ++ hdr ++ concat slots ++ post) (Z.of_nat (length pre)) big
  = (ss <- collect (fun slot => Sound_unpack slot 0 big t) slots ;;
     ss' <- unpack_loop t (pre ++ hdr ++ concat slots ++ post) big m
              (Z.of_nat (length pre + 8 + 32 * length slots)) ss ;;
     Ok {| _lookup_ := t;
           unk2 := PInt (word_at big hdr 2 1);
           unk3 := PInt (word_at big hdr 3 1);
           sounds := ss' |}).
Proof.
  intros Hl Hall Hn.
  rewrite from_buffer_inside by (rewrite !length_app; lia).
  assert (Hh : slice (pre ++ hdr ++ concat slots ++ post) (length pre) 8 = hdr).
  { rewrite <- Hl. apply slice_middle. }
  assert (Hw : forall i j, (i + j <= 8)%nat ->
             word_at big (pre ++ hdr ++ concat slots ++ post) (length pre + i) j
             = word_at big hdr i j).
  { intros i j Hi. rewrite <- Hh at 2. now rewrite word_at_slice. }
  rewrite (Hw 2%nat 1%nat), (Hw 3%nat 1%nat) by lia.
  pose proof (Hw 0%nat 2%nat) as Hw0. rewrite Nat.add_0_r in Hw0.
  rewrite Hw0 by lia. rewrite Hn.
  replace (pre ++ hdr ++ concat slots ++ post)
    with ((pre ++ hdr) ++ concat slots ++ post) by now rewrite <- app_assoc.
  replace (Z.of_nat (length pre) + 8) with (Z.of_nat (length (pre ++ hdr)))
    by (rewrite length_app; lia).
  rewrite unpack_loop_slots by assumption.
  destruct (collect _ slots) as [ss | e]; cbn [bind app]; [|reflexivity].
  rewrite length_app, Hl. reflexivity.
Qed.

End AnimationFacts.

(** ** Decoding and encoding whole animations *)

Section Codec.
Context {FC : FloatCodec}.

Lemma collect_all_ok {A B : Type} (f : A -> result B) (l : list A) :
  (forall a, In a l -> is_ok (f a) = true) -> exists bs, collect f l = Ok bs.
Proof.
  induction l as [|a l IH]; intros H.
  - exists []. reflexivity.
  - destruct IH as (bs & Hbs); [intros; apply H; now right|].
    pose proof (H a (or_introl eq_refl)) as Ha.
    simpl. destruct (f a) as [b|]; [|discriminate].
    exists (b :: bs). simpl. now rewrite Hbs.
Qed.

(** Results mapped back to where they came from. *)
Lemma collect_inverse {A B : Type} (f : A -> result B) (g : B -> result A)
    (l : list A) :
  forall bs,
    collect f l = Ok bs ->
    (forall a b, In a l -> f a = Ok b -> g b = Ok a) ->
    collect g bs = Ok l.
Proof.
  induction l as [|a l IH]; simpl; intros bs H Hg.
  - now injection H as <-.
  - apply bind_ok in H as (b & Hb & H). apply bind_ok in H as (bs' & H & [= <-]).
    simpl. rewrite (Hg a b) by auto. simpl. rewrite (IH bs') by auto. reflexivity.
Qed.

Lemma collect_Forall {A B : Type} (f : A -> result B) (P : B -> Prop) (l : list A) :
  forall bs,
    collect f l = Ok bs ->
    (forall a b, In a l -> f a = Ok b -> P b) ->
    Forall P bs.
Proof.
  induction l as [|a l IH]; simpl; intros bs H HP.
  - injection H as <-. constructor.
  - apply bind_ok in H as (b & Hb & H). apply bind_ok in H as (bs' & H & [= <-]).
    constructor; eauto.
Qed.

(** A buffer laid out as a canonical header and canonical slots decodes,
    and the animation encodes to the same bytes. *)
Lemma reencode_slots (t : JAUSoundIdTable) (big : bool) (hdr : list byte)
    (slots : list (list byte)) :
  is_dict t = true ->
  length hdr = 8%nat ->
  word_at big hdr 0 2 = Z.of_nat (length slots) ->
  canonical_header hdr ->
  Forall (fun slot => length slot = 32%nat) slots ->
  (forall slot, In slot slots ->
                canonical_slot big slot
                /\ is_ok (find_name t (word_at big slot 0 4)) = true) ->
  exists A, from_buffer t (hdr ++ concat slots) 0 big = Ok A
            /\ makebin A big = Ok (hdr ++ concat slots).
Proof.
  intros Hd Hl Hn Hch Hall Hslots.
  assert (Hfb := from_buffer_slots t big [] hdr slots [] 0 Hl Hall).
  rewrite Hn, Nat2Z.id, Nat.add_0_r in Hfb. specialize (Hfb eq_refl).
  cbn [app length Z.of_nat unpack_loop] in Hfb. rewrite app_nil_r in Hfb.
  destruct (collect_all_ok (fun slot => Sound_unpack slot 0 big t) slots) as (ss & Hss).
  { intros slot Hin. destruct (Hslots slot Hin) as [_ Hok].
    pose proof (Sound_unpack_lookup slot big t) as Hu.
    rewrite Forall_forall in Hall. specialize (Hu (Hall slot Hin)).
    destruct (find_name t (word_at big slot 0 4)); [|discriminate].
    destruct Hu as (s & -> & _). reflexivity. }
  rewrite Hss in Hfb. cbn [bind] in Hfb.
  eexists. split; [exact Hfb|].
  rewrite makebin_bytes. cbn [sounds unk2 unk3 _lookup_].
  rewrite (collect_length _ _ _ Hss), <- Hn.
  assert (Hp := pack_unpack_codes big animation_codes hdr Hl
                  (canonical_of_header big hdr Hl Hch)).
  assert (Hv : unpack_codes big animation_codes hdr
               = [PInt (word_at big hdr 0 2); PInt (word_at big hdr 2 1);
                  PInt (word_at big hdr 3 1)]).
  { clear - Hl. explode hdr of Hl into 8. reflexivity. }
  rewrite Hv in Hp. rewrite Hp. cbn [bind].
  rewrite (collect_inverse _ (Sound_bytes t big) _ _ Hss); [reflexivity|].
  intros slot s Hin Hs. rewrite Forall_forall in Hall.
  destruct (Hslots slot Hin) as [Hc _].
  apply Sound_bytes_unpack; auto using canonical_of_slot.
Qed.

Lemma unpack_from_ok (st : Struct) (data : list byte) (off : Z) (vs : list pyval) :
  unpack_from st data off = Ok vs ->
  exists rec, length rec = codes_size (s_codes st)
              /\ vs = unpack_codes (s_big st) (s_codes st) rec.
Proof.
  unfold unpack_from, s_size.
  destruct (locate _ _ off) as [o|] eqn:Hloc; [|discriminate].
  intros [= <-]. apply locate_some in Hloc as [H0 H1]; try lia.
  eexists. split; [|reflexivity].
  rewrite length_firstn, length_skipn. lia.
Qed.

(** Whatever the offset, a sound that is read is read from 32 bytes. *)
Lemma Sound_unpack_ok (data : list byte) (off : Z) (big : bool)
    (t : JAUSoundIdTable) (s : JAUSoundAnimationSound) :
  Sound_unpack data off big t = Ok s -> decoded t s.
Proof.
  unfold Sound_unpack. intros H. apply bind_ok in H as (vs & Hvs & H).
  apply unpack_from_ok in Hvs as (slot & Hl & ->).
  destruct (sound_struct_codes big) as [Hc Hb]. rewrite Hc, Hb in *.
  exists big, slot. split; [exact Hl|].
  now rewrite Sound_unpack_slot.
Qed.

Lemma unpack_loop_ok (t : JAUSoundIdTable) (data : list byte) (big : bool) (n : nat) :
  forall (off : Z) (acc ss : list JAUSoundAnimationSound),
    unpack_loop t data big n off acc = Ok ss ->
    exists new, ss = acc ++ new /\ length new = n /\ Forall (decoded t) new.
Proof.
  induction n as [|n IH]; intros off acc ss H.
  - injection H as <-. exists []. now rewrite app_nil_r.
  - cbn [unpack_loop] in H. apply bind_ok in H as (s & Hs & H).
    apply IH in H as (new & -> & Hlen & Hall).
    exists (s :: new). rewrite <- app_assoc. repeat split.
    + simpl. now f_equal.
    + constructor; [eapply Sound_unpack_ok; eassumption | assumption].
Qed.

(** What [from_buffer] returns when it returns. *)
Lemma from_buffer_ok (t : JAUSoundIdTable) (data : list byte) (off : Z)
    (big : bool) (A : JAUSoundAnimation) :
  from_buffer t data off big = Ok A ->
  exists (hdr : list byte) (ss : list JAUSoundAnimationSound),
    length hdr = 8%nat
    /\ A = {| _lookup_ := t;
              unk2 := PInt (word_at big hdr 2 1);
              unk3 := PInt (word_at big hdr 3 1);
              sounds := ss |}
    /\ Z.of_nat (length ss) = word_at big hdr 0 2
    /\ Forall (decoded t) ss.
Proof.
  unfold from_buffer, Animation_unpack. intros H.
  apply bind_ok in H as (vs & Hvs & H).
  apply unpack_from_ok in Hvs as (hdr & Hl & ->).
  destruct (animation_struct_codes big) as [Hc Hb]. rewrite Hc, Hb in *.
  change (codes_size animation_codes) with 8%nat in Hl.
  exists hdr.
  assert (Hv : unpack_codes big animation_codes hdr
               = [PInt (word_at big hdr 0 2); PInt (word_at big hdr 2 1);
                  PInt (word_at big hdr 3 1)]).
  { clear - Hl. explode hdr of Hl into 8. reflexivity. }
  rewrite Hv in H. apply bind_ok in H as (ss & Hss & [= <-]).
  apply unpack_loop_ok in Hss as (new & -> & Hlen & Hall).
  cbn [Animation_init sounds _lookup_ app] in *.
  exists new. repeat split; auto.
  rewrite Hlen. apply Z2Nat.id.
  apply (uint_value_bound big (slice hdr 0 2)).
Qed.

End Codec.

(** ** The properties of the codec *)

Section CodecProperties.
Context {FC : FloatCodec}.

Lemma unpack_header (big : bool) (hdr : list byte) :
  length hdr = 8%nat ->
  unpack_codes big animation_codes hdr
  = [PInt (word_at big hdr 0 2); PInt (word_at big hdr 2 1);
     PInt (word_at big hdr 3 1)].
Proof. intros Hl. explode hdr of Hl into 8. reflexivity. Qed.

(** C1, as the code has it.  Byte-exact re-encoding: a buffer of exactly
    [8 + 32 * N] bytes whose header declares [N] entries, whose pad bytes
    are zero, whose sound IDs the table resolves and whose float patterns
    the float codec writes back unchanged ([f32_stable]: with IEEE floats
    every pattern but a signalling NaN, [ieee_stable]), decodes to an
    animation that encodes to the same bytes, in either byte order. *)
Theorem reencode_is_byte_exact (t : JAUSoundIdTable) (B : list byte) (N : nat)
    (big : bool) :
  is_dict t = true ->
  length B = (8 + 32 * N)%nat ->
  word_at big B 0 2 = Z.of_nat N ->
  canonical_header (slice B 0 8) ->
  (forall k, (k < N)%nat -> canonical_slot big (slice B (8 + 32 * k) 32)) ->
  (forall k, (k < N)%nat -> is_ok (find_name t (entry_id big B 0 k)) = true) ->
  exists A, from_buffer t B 0 big = Ok A /\ pack_buffer A big = Ok B.
Proof.
  intros Hd Hlen Hn Hch Hcs Hres.
  pose (hdr := slice B 0 8). pose (slots := chunks N (skipn 8 B)).
  assert (HB : B = hdr ++ concat slots).
  { pose proof (buffer_chunks B 8 N) as H.
    rewrite (skipn_all2 (n := (8 + 32 * N)%nat) B) in H by lia.
    now rewrite app_nil_r in H. }
  assert (Hl : length hdr = 8%nat) by (apply length_slice; lia).
  assert (Hall : Forall (fun slot => length slot = 32%nat) slots).
  { apply Forall_chunks. rewrite length_skipn. lia. }
  assert (Hnth : forall k, (k < N)%nat -> nth k slots [] = slice B (8 + 32 * k) 32).
  { intros k Hk. unfold slots. rewrite nth_chunks by lia. apply slice_skipn. }
  destruct (reencode_slots t big hdr slots) as (A & H1 & H2); auto.
  - unfold slots, hdr. rewrite length_chunks, <- Hn.
    now rewrite word_at_slice by lia.
  - intros slot Hin. apply (In_nth _ _ []) in Hin as (k & Hk & <-).
    unfold slots in Hk. rewrite length_chunks in Hk. rewrite Hnth by lia.
    split; [now apply Hcs|].
    rewrite word_at_slice by lia. specialize (Hres k Hk).
    unfold entry_id in Hres.
    now replace (8 + 32 * k + 0)%nat with (0 + 8 + 32 * k)%nat by lia.
  - exists A. rewrite <- HB in H1, H2. split; assumption.
Qed.

(** C2.  Round trip: an animation obtained by decoding with a table, whose
    floats the float codec reads back as it writes them, encodes to bytes
    that decode, with the same table and byte order, to the same
    animation. *)
Theorem decode_of_encode_is_identity (t : JAUSoundIdTable) (B0 : list byte)
    (off0 : Z) (big0 big : bool) (A : JAUSoundAnimation) :
  is_dict t = true ->
  from_buffer t B0 off0 big0 = Ok A ->
  Forall faithful_floats (sounds A) ->
  exists bs, pack_buffer A big = Ok bs /\ from_buffer t bs 0 big = Ok A.
Proof.
  intros Hd H Hf.
  apply from_buffer_ok in H as (hdr0 & ss & Hl0 & -> & Hn & Hall).
  cbn [sounds] in Hf. unfold pack_buffer. rewrite makebin_bytes.
  cbn [sounds unk2 unk3 _lookup_].
  (* the header *)
  destruct (unpack_pack_codes big animation_codes
              [PInt (Z.of_nat (length ss)); PInt (word_at big0 hdr0 2 1);
               PInt (word_at big0 hdr0 3 1)]) as (h & Hh & Hu).
  { cbn [wire_values wire_value animation_codes]. rewrite Hn.
    repeat split;
      [ apply (unpack_uint_is_uint big0 2) | apply (unpack_uint_is_uint big0 1)
      | apply (unpack_uint_is_uint big0 1) ]; apply length_slice; lia. }
  pose proof (pack_codes_length _ _ _ _ Hh) as Hl.
  change (codes_size animation_codes) with 8%nat in Hl.
  rewrite (unpack_header big h Hl) in Hu. injection Hu as Hu0 Hu2 Hu3.
  (* the sounds *)
  assert (Hrt : forall s, In s ss ->
            exists bs, Sound_bytes t big s = Ok bs /\ length bs = 32%nat
                       /\ Sound_unpack bs 0 big t = Ok s).
  { intros s Hin. rewrite Forall_forall in Hall, Hf.
    destruct (Hall s Hin) as (big' & slot & Hsl & Hs).
    eapply Sound_unpack_bytes; eauto. }
  destruct (collect_all_ok (Sound_bytes t big) ss) as (es & Hes).
  { intros s Hin. destruct (Hrt s Hin) as (bs & -> & _). reflexivity. }
  assert (Hes32 : Forall (fun slot => length slot = 32%nat) es).
  { eapply collect_Forall; [exact Hes|]. intros s bs _ Hs.
    eapply Sound_bytes_length; eassumption. }
  assert (Hback : collect (fun slot => Sound_unpack slot 0 big t) es = Ok ss).
  { eapply collect_inverse; [exact Hes|]. intros s bs Hin Hs.
    destruct (Hrt s Hin) as (bs' & Hs' & _ & Hu). congruence. }
  exists (h ++ concat es). rewrite Hh, Hes. split; [reflexivity|].
  assert (Hfb := from_buffer_slots t big [] h es [] 0 Hl Hes32).
  rewrite Hu0, Nat2Z.id, Nat.add_0_r, (collect_length _ _ _ Hes) in Hfb.
  specialize (Hfb eq_refl).
  cbn [app length Z.of_nat unpack_loop] in Hfb. rewrite app_nil_r in Hfb.
  rewrite Hfb, Hback. cbn [bind]. now rewrite Hu2, Hu3.
Qed.

End CodecProperties.

(** ** Decoding by entry index *)

Section IndexedDecoding.
Context {FC : FloatCodec}.

Lemma collect_map {A B C : Type} (g : A -> B) (f : B -> result C) (l : list A) :
  collect f (map g l) = collect (fun a => f (g a)) l.
Proof.
  induction l as [|a l IH]; simpl; [reflexivity | now rewrite IH].
Qed.

Lemma chunks_seq (n : nat) :
  forall data, chunks n data = map (fun k => slice data (32 * k) 32) (seq 0 n).
Proof.
  induction n as [|n IH]; intros data; [reflexivity|].
  cbn [chunks seq map]. f_equal. rewrite IH, <- seq_shift, map_map.
  apply map_ext. intros k. rewrite slice_skipn. f_equal. lia.
Qed.

(** [from_buffer] when the header and the first [K] entries lie in the
    buffer: these entries are read from their slots, then the loop goes on
    with the others. *)
Lemma from_buffer_prefix (t : JAUSoundIdTable) (B : list byte) (o N K : nat)
    (big : bool) :
  (o + 8 + 32 * K <= length B)%nat ->
  word_at big B o 2 = Z.of_nat N ->
  (K <= N)%nat ->
  from_buffer t B (Z.of_nat o) big
  = (ss <- collect (entry_sound t big B o) (seq 0 K) ;;
     ss' <- unpack_loop t B big (N - K) (Z.of_nat (o + 8 + 32 * K)) ss ;;
     Ok {| _lookup_ := t;
           unk2 := PInt (word_at big B (o + 2) 1);
           unk3 := PInt (word_at big B (o + 3) 1);
           sounds := ss' |}).
Proof.
  intros Hlen Hn HK.
  pose (pre := firstn o B). pose (hdr := slice B o 8).
  pose (slots := chunks K (skipn (o + 8) B)).
  pose (post := skipn (o + 8 + 32 * K) B).
  assert (HB : pre ++ hdr ++ concat slots ++ post = B).
  { pose proof (buffer_chunks B (o + 8) K) as H. fold slots post in H.
    transitivity (firstn (o + 8) B ++ concat slots ++ post);
      [|symmetry; exact H].
    rewrite app_assoc. f_equal. unfold pre, hdr.
    change (firstn (o + 8) B) with (slice B 0 (o + 8)).
    now rewrite slice_app. }
  assert (Hpre : length pre = o) by (unfold pre; rewrite length_firstn; lia).
  assert (Hhdr : length hdr = 8%nat) by (apply length_slice; lia).
  assert (Hall : Forall (fun slot => length slot = 32%nat) slots).
  { apply Forall_chunks. rewrite length_skipn. lia. }
  assert (Hw : forall i j, (i + j <= 8)%nat ->
                           word_at big hdr i j = word_at big B (o + i) j).
  { intros i j Hij. unfold hdr. now apply word_at_slice. }
  assert (E := from_buffer_slots t big pre hdr slots post (N - K) Hhdr Hall).
  rewrite HB, Hpre in E. unfold slots in E at 1 3. rewrite length_chunks in E.
  rewrite (Hw 0%nat 2%nat), (Hw 2%nat 1%nat), (Hw 3%nat 1%nat) in E by lia.
  rewrite Nat.add_0_r, Hn, Nat2Z.id in E.
  rewrite E by lia. f_equal.
  unfold slots. rewrite chunks_seq, collect_map.
  apply collect_ext. intros k _. unfold entry_sound.
  rewrite slice_skipn. reflexivity.
Qed.

(** The outcome of reading an entry from its slot is that of the lookup of
    its ID. *)
Lemma entry_sound_lookup (t : JAUSoundIdTable) (big : bool) (B : list byte)
    (o k : nat) :
  (o + 8 + 32 * (k + 1) <= length B)%nat ->
  match find_name t (entry_id big B o k) with
  | Ok name => exists s, entry_sound t big B o k = Ok s /\ sound s = PStr name
  | Raise e => entry_sound t big B o k = Raise e
  end.
Proof.
  intros Hlen. unfold entry_sound, entry_id.
  pose proof (Sound_unpack_lookup (slice B (o + 8 + 32 * k) 32) big t) as H.
  rewrite word_at_slice, Nat.add_0_r in H by lia.
  apply H. apply length_slice. lia.
Qed.

Lemma entry_sound_ok (t : JAUSoundIdTable) (big : bool) (B : list byte) (o k : nat) :
  (o + 8 + 32 * (k + 1) <= length B)%nat ->
  is_ok (entry_sound t big B o k) = is_ok (find_name t (entry_id big B o k)).
Proof.
  intros Hlen. pose proof (entry_sound_lookup t big B o k Hlen) as H.
  destruct (find_name t (entry_id big B o k)).
  - destruct H as (s & -> & _). reflexivity.
  - now rewrite H.
Qed.

Lemma entry_sound_raise (t : JAUSoundIdTable) (big : bool) (B : list byte)
    (o k : nat) (e : exn) :
  (o + 8 + 32 * (k + 1) <= length B)%nat ->
  entry_sound t big B o k = Raise e -> e = KeyError.
Proof.
  intros Hlen He. pose proof (entry_sound_lookup t big B o k Hlen) as H.
  destruct (find_name t (entry_id big B o k)) as [name | e'] eqn:Hn.
  - destruct H as (s & Hs & _). congruence.
  - apply find_name_raise in Hn. congruence.
Qed.

End IndexedDecoding.

(** ** The properties of decoding *)

Section DecodingProperties.
Context {FC : FloatCodec}.

Lemma in_seq_0 (n k : nat) : In k (seq 0 n) <-> (k < n)%nat.
Proof. rewrite in_seq. lia. Qed.

(** The header and [N] entries lie in the buffer: the animation is read
    from their slots. *)
Lemma from_buffer_complete (t : JAUSoundIdTable) (B : list byte) (o N : nat)
    (big : bool) :
  (o + 8 + 32 * N <= length B)%nat ->
  word_at big B o 2 = Z.of_nat N ->
  from_buffer t B (Z.of_nat o) big
  = (ss <- collect (entry_sound t big B o) (seq 0 N) ;;
     Ok {| _lookup_ := t;
           unk2 := PInt (word_at big B (o + 2) 1);
           unk3 := PInt (word_at big B (o + 3) 1);
           sounds := ss |}).
Proof.
  intros Hlen Hn. rewrite (from_buffer_prefix t B o N N) by auto.
  rewrite Nat.sub_diag. destruct (collect _ _); reflexivity.
Qed.

(** C10.  Decoding at a non-negative offset reads the window of
    [8 + 32 * N] bytes at the offset and nothing else: two buffers that
    hold the same window decode alike, whatever follows or precedes it,
    and when the sound IDs of the window resolve the decoding succeeds
    with [N] sounds. *)
Theorem decode_reads_its_window (t : JAUSoundIdTable) (B1 B2 : list byte)
    (o1 o2 N : nat) (big : bool) :
  (o1 + 8 + 32 * N <= length B1)%nat ->
  (o2 + 8 + 32 * N <= length B2)%nat ->
  word_at big B1 o1 2 = Z.of_nat N ->
  slice B1 o1 (8 + 32 * N) = slice B2 o2 (8 + 32 * N) ->
  from_buffer t B1 (Z.of_nat o1) big = from_buffer t B2 (Z.of_nat o2) big
  /\ ((forall k, (k < N)%nat -> is_ok (find_name t (entry_id big B1 o1 k)) = true) ->
      exists A, from_buffer t B1 (Z.of_nat o1) big = Ok A
                /\ length (sounds A) = N).
Proof.
  intros H1 H2 Hn Hw.
  assert (Hs : forall i j, (i + j <= 8 + 32 * N)%nat ->
                           slice B1 (o1 + i) j = slice B2 (o2 + i) j).
  { intros i j Hij.
    rewrite <- (slice_slice B1 o1 (8 + 32 * N)), <- (slice_slice B2 o2 (8 + 32 * N))
      by assumption.
    now rewrite Hw. }
  assert (Hn2 : word_at big B2 o2 2 = Z.of_nat N).
  { rewrite <- Hn. unfold word_at.
    rewrite <- (Nat.add_0_r o1), <- (Nat.add_0_r o2). now rewrite Hs by lia. }
  rewrite (from_buffer_complete t B1 o1 N), (from_buffer_complete t B2 o2 N)
    by assumption.
  split.
  - unfold word_at. rewrite (Hs 2%nat), (Hs 3%nat) by lia.
    rewrite (collect_ext (entry_sound t big B1 o1) (entry_sound t big B2 o2));
      [reflexivity|].
    intros k Hk. apply in_seq_0 in Hk. unfold entry_sound.
    rewrite <- !Nat.add_assoc. now rewrite Hs by lia.
  - intros Hres.
    destruct (collect_all_ok (entry_sound t big B1 o1) (seq 0 N)) as (ss & Hss).
    { intros k Hk. apply in_seq_0 in Hk. rewrite entry_sound_ok by lia. auto. }
    rewrite Hss. eexists. split; [reflexivity|]. cbn [sounds].
    rewrite (collect_length _ _ _ Hss). apply length_seq.
Qed.



End DecodingProperties.

(** ** The properties of encoding *)

Section EncodingProperties.
Context {FC : FloatCodec}.

Lemma pack_codes_pads (big : bool) (cs : list fmtcode) :
  forall (vs : list pyval) (bs : list byte),
    pack_codes big cs vs = Ok bs -> pads_zero cs bs.
Proof.
  induction cs as [|c cs IH]; intros vs bs H; [exact I|].
  assert (Hv : c <> c_x ->
               match vs with
               | [] => Raise StructError
               | v :: vs' =>
                   b <- pack_code big c v ;;
                   rest <- pack_codes big cs vs' ;; Ok (b ++ rest)
               end = Ok bs -> pads_zero cs (skipn (code_size c) bs)).
  { intros _ H0. destruct vs as [|v vs]; [discriminate|].
    apply bind_ok in H0 as (b & Hb & H0).
    apply bind_ok in H0 as (rest & Hr & [= <-]).
    apply pack_code_length in Hb. rewrite <- Hb.
    rewrite skipn_app, skipn_all, Nat.sub_diag. cbn [skipn app]. eauto. }
  destruct c; cbn [pads_zero]; try (split; [exact I | apply Hv; [discriminate | exact H]]).
  cbn [pack_codes] in H. apply bind_ok in H as (rest & Hr & [= <-]).
  split; [reflexivity | cbn [code_size skipn]; eauto].
Qed.

Lemma is_uint_pack (big : bool) (n : nat) (v : pyval) :
  is_uint (Z.of_nat n) v = true -> exists bs, pack_uint big n v = Ok bs.
Proof.
  intros H. destruct (unpack_uint_pack big n v H) as (bs & Hbs & _). eauto.
Qed.

Lemma is_f32_pack (big : bool) (v : pyval) :
  is_f32 v = true -> exists bs, pack_float big v = Ok bs.
Proof.
  unfold is_f32, pack_float. destruct v; try discriminate. cbn [as_double].
  destruct (f32_pack x); [eauto | discriminate].
Qed.

(** A sound of the data model whose name resolves has its 32 bytes. *)
Lemma Sound_bytes_well_typed (t : JAUSoundIdTable) (big : bool)
    (s : JAUSoundAnimationSound) :
  well_typed_sound t s = true -> exists bs, Sound_bytes t big s = Ok bs.
Proof.
  unfold well_typed_sound, well_typed_fields, Sound_bytes. intros H.
  apply andb_prop in H as [H Hf].
  unfold is_sound_name in H. destruct (sound s) as [| | | |name| |]; try discriminate.
  cbn [find_id]. destruct (dict_get t name) as [i|]; [|discriminate]. cbn [bind].
  cbn [pack_codes sound_codes pack_code].
  destruct (is_uint_pack big 4 (PInt i) H) as (b0 & ->). clear H.
  repeat match goal with
         | H : _ && _ = true |- _ => apply andb_prop in H; destruct H
         end.
  repeat match goal with
         | Hf : is_f32 ?v = true |- context [pack_float big ?v] =>
             destruct (is_f32_pack big v Hf) as (? & ->)
         | Hu : is_uint 4 ?v = true |- context [pack_uint big 4 ?v] =>
             destruct (is_uint_pack big 4 v Hu) as (? & ->)
         | Hu : is_uint 1 ?v = true |- context [pack_uint big 1 ?v] =>
             destruct (is_uint_pack big 1 v Hu) as (? & ->)
         end.
  cbn [bind]. eauto.
Qed.

(** The header of an animation of at most 65535 sounds. *)
Lemma header_pack (big : bool) (n : nat) (v2 v3 : pyval) :
  Z.of_nat n <= 65535 ->
  is_uint 1 v2 = true ->
  is_uint 1 v3 = true ->
  exists h, pack_codes big animation_codes [PInt (Z.of_nat n); v2; v3] = Ok h
            /\ length h = 8%nat /\ word_at big h 0 2 = Z.of_nat n.
Proof.
  intros Hn H2 H3.
  assert (H0 : is_uint (Z.of_nat 2) (PInt (Z.of_nat n)) = true).
  { unfold is_uint. apply andb_true_intro.
    split; [apply Z.leb_le | apply Z.ltb_lt]; simpl; lia. }
  destruct (unpack_uint_pack big 2 _ H0) as (b0 & Hb0 & Hl0 & Hv0).
  destruct (unpack_uint_pack big 1 _ H2) as (b2 & Hb2 & Hl2 & _).
  destruct (unpack_uint_pack big 1 _ H3) as (b3 & Hb3 & Hl3 & _).
  cbn [pack_codes animation_codes pack_code]. rewrite Hb0, Hb2, Hb3. cbn [bind].
  eexists. split; [reflexivity|].
  explode b0 of Hl0 into 2. explode b2 of Hl2 into 1. explode b3 of Hl3 into 1.
  split; [reflexivity|]. injection Hv0 as Hv0. exact Hv0.
Qed.

(** More sounds than the count field can hold: the header is refused. *)
Lemma makebin_too_many (A : JAUSoundAnimation) (big : bool) :
  65535 < Z.of_nat (length (sounds A)) -> makebin A big = Raise StructError.
Proof.
  intros H. rewrite makebin_bytes.
  cbn [pack_codes animation_codes pack_code]. unfold pack_uint. cbn [as_index].
  destruct (Z.of_nat (length (sounds A)) <? 2 ^ (8 * Z.of_nat 2)) eqn:E.
  - apply Z.ltb_lt in E. simpl in E. lia.
  - rewrite andb_false_r. reflexivity.
Qed.

Lemma chunks_concat (es : list (list byte)) (post : list byte) :
  Forall (fun slot => length slot = 32%nat) es ->
  chunks (length es) (concat es ++ post) = es.
Proof.
  induction 1 as [|slot es Hslot _ IH]; [reflexivity|].
  cbn [length chunks concat]. rewrite <- app_assoc.
  assert (H1 : firstn 32 (slot ++ concat es ++ post) = slot).
  { rewrite <- Hslot, firstn_app, firstn_all, Nat.sub_diag. cbn [firstn].
    apply app_nil_r. }
  assert (H2 : skipn 32 (slot ++ concat es ++ post) = concat es ++ post).
  { rewrite <- Hslot, skipn_app, skipn_all, Nat.sub_diag. reflexivity. }
  now rewrite H1, H2, IH.
Qed.

(** What [makebin] returns when it returns: a header of 8 bytes and one
    slot of 32 bytes for each sound. *)
Lemma makebin_ok (A : JAUSoundAnimation) (big : bool) (bs : list byte) :
  makebin A big = Ok bs ->
  exists (h : list byte) (es : list (list byte)),
    bs = h ++ concat es
    /\ pack_codes big animation_codes
         [PInt (Z.of_nat (length (sounds A))); unk2 A; unk3 A] = Ok h
    /\ collect (Sound_bytes (_lookup_ A) big) (sounds A) = Ok es
    /\ length h = 8%nat
    /\ length es = length (sounds A)
    /\ Forall (fun slot => length slot = 32%nat) es.
Proof.
  rewrite makebin_bytes. intros H.
  apply bind_ok in H as (h & Hh & H). apply bind_ok in H as (es & Hes & [= <-]).
  exists h, es. repeat split; auto.
  - now apply pack_codes_length in Hh.
  - eapply collect_length; eassumption.
  - eapply collect_Forall; [exact Hes|]. intros s b _ Hb.
    eapply Sound_bytes_length; eassumption.
Qed.

Lemma length_concat_slots (es : list (list byte)) :
  Forall (fun slot => length slot = 32%nat) es ->
  length (concat es) = (32 * length es)%nat.
Proof.
  induction 1 as [|slot es Hslot _ IH]; [reflexivity|].
  cbn [concat length]. rewrite length_app, Hslot, IH. lia.
Qed.

(** An animation of the data model with at most 65535 sounds is encoded. *)
Lemma makebin_well_typed (A : JAUSoundAnimation) (big : bool) :
  well_typed A = true ->
  Z.of_nat (length (sounds A)) <= 65535 ->
  exists bs, makebin A big = Ok bs.
Proof.
  unfold well_typed. intros H Hn.
  apply andb_prop in H as [H Hs]. apply andb_prop in H as [H2 H3].
  rewrite makebin_bytes.
  destruct (header_pack big _ _ _ Hn H2 H3) as (h & -> & _). cbn [bind].
  destruct (collect_all_ok (Sound_bytes (_lookup_ A) big) (sounds A)) as (es & ->).
  - intros s Hin. rewrite forallb_forall in Hs.
    destruct (Sound_bytes_well_typed _ big s (Hs s Hin)) as (b & ->). reflexivity.
  - cbn [bind]. eauto.
Qed.

(** C7, as the code has it.  An animation of the data model with [N]
    sounds, [N <= 65535], whose names resolve, is encoded in
    [8 + 32 * N] bytes and the count field of the header holds [N], the
    length of the sequence of sounds; with more than 65535 sounds nothing
    is returned: struct.error is raised. *)
Theorem makebin_length_and_count (A : JAUSoundAnimation) (big : bool) :
  (well_typed A = true ->
   Z.of_nat (length (sounds A)) <= 65535 ->
   exists bs, pack_buffer A big = Ok bs
              /\ length bs = (8 + 32 * length (sounds A))%nat
              /\ word_at big bs 0 2 = Z.of_nat (length (sounds A)))
  /\ (65535 < Z.of_nat (length (sounds A)) -> pack_buffer A big = Raise StructError).
Proof.
  split; [|apply makebin_too_many].
  intros Hwt Hn. unfold pack_buffer.
  destruct (makebin_well_typed A big Hwt Hn) as (bs & Hbs).
  exists bs. split; [exact Hbs|].
  destruct (makebin_ok A big bs Hbs) as (h & es & -> & Hh & _ & Hl & Hle & Hall).
  split.
  - rewrite length_app, length_concat_slots, Hl, Hle by assumption. reflexivity.
  - unfold well_typed in Hwt.
    apply andb_prop in Hwt as [Hwt _]. apply andb_prop in Hwt as [H2 H3].
    destruct (header_pack big _ _ _ Hn H2 H3) as (h' & Hh' & _ & Hw).
    assert (h' = h) by congruence. subst h'.
    rewrite <- Hw. unfold word_at, slice. cbn [skipn].
    rewrite firstn_app, Hl. cbn [Nat.sub firstn]. now rewrite app_nil_r.
Qed.

(** C8.  Whatever the sounds hold, the bytes [makebin] returns have zero
    pad bytes: bytes 4 to 7 of the header and the six last bytes of every
    slot; and an animation of the data model with at most 65535 sounds is
    encoded. *)
Theorem padding_is_zero (A : JAUSoundAnimation) (big : bool) :
  (forall bs, pack_buffer A big = Ok bs ->
     length bs = (8 + 32 * length (sounds A))%nat
     /\ slice bs 4 4 = repeat Byte.x00 4
     /\ forall k, (k < length (sounds A))%nat ->
                  slice bs (8 + 32 * k + 26) 6 = repeat Byte.x00 6)
  /\ (well_typed A = true -> Z.of_nat (length (sounds A)) <= 65535 ->
      exists bs, pack_buffer A big = Ok bs).
Proof.
  split; [|apply makebin_well_typed].
  unfold pack_buffer. intros bs Hbs.
  destruct (makebin_ok A big bs Hbs) as (h & es & -> & Hh & Hes & Hl & Hle & Hall).
  split; [|split].
  - rewrite length_app, length_concat_slots, Hl, Hle by assumption. reflexivity.
  - apply pack_codes_pads in Hh. clear - Hh Hl. explode h of Hl into 8.
    cbn in Hh. unfold slice. cbn [skipn firstn app].
    destruct Hh as (_ & _ & _ & [= ->] & [= ->] & [= ->] & [= ->] & _).
    reflexivity.
  - intros k Hk.
    assert (Hslot : slice (h ++ concat es) (8 + 32 * k) 32 = nth k es []).
    { replace (8 + 32 * k)%nat with (length h + 32 * k)%nat by lia.
      rewrite <- slice_skipn, skipn_app, skipn_all, Nat.sub_diag.
      cbn [skipn app]. rewrite <- (nth_chunks (length es)) by lia.
      rewrite <- (app_nil_r (concat es)). now rewrite chunks_concat. }
    rewrite <- (slice_slice _ (8 + 32 * k) 32) by lia. rewrite Hslot.
    assert (Hin : In (nth k es []) es) by (apply nth_In; lia).
    rewrite Forall_forall in Hall. pose proof (Hall _ Hin) as Hl32.
    assert (Hpad : pads_zero sound_codes (nth k es [])).
    { assert (Hp : Forall (pads_zero sound_codes) es).
      { eapply collect_Forall; [exact Hes|]. intros s b _ Hs.
        unfold Sound_bytes in Hs. apply bind_ok in Hs as (i & _ & Hs).
        eapply pack_codes_pads; eassumption. }
      rewrite Forall_forall in Hp. now apply Hp. }
    revert Hl32 Hpad. generalize (nth k es []). clear. intros slot Hl Hpad.
    explode slot of Hl into 32. cbn in Hpad. unfold slice. cbn [skipn firstn].
    destruct Hpad as (_ & _ & _ & _ & _ & _ & _ & _ & _ & _ & _ & Hpad).
    destruct Hpad as ([= ->] & [= ->] & [= ->] & [= ->] & [= ->] & [= ->] & _).
    reflexivity.
Qed.

End EncodingProperties.

(** ** Unknown sounds *)

Section UnknownSounds.
Context {FC : FloatCodec}.

Lemma collect_not_ok {A B : Type} (f : A -> result B) (l : list A) :
  (exists a, In a l /\ is_ok (f a) = false) -> is_ok (collect f l) = false.
Proof.
  induction l as [|x l IH]; intros (a & Hin & Ha); [contradiction|].
  simpl. destruct (f x) as [b|] eqn:Hx; [|reflexivity]. simpl.
  destruct Hin as [-> | Hin]; [rewrite Hx in Ha; discriminate|].
  assert (H : is_ok (collect f l) = false) by eauto.
  destruct (collect f l); [discriminate | reflexivity].
Qed.

Lemma Sound_bytes_unknown (t : JAUSoundIdTable) (big : bool)
    (s : JAUSoundAnimationSound) (e : exn) :
  find_id t (sound s) = Raise e -> Sound_bytes t big s = Raise e.
Proof. unfold Sound_bytes. now intros ->. Qed.

(** C5, as the code has it.  A sound whose ID or name the table does not
    know aborts the operation.  Reading an entry that lies in the buffer
    and whose ID is unknown raises KeyError, and so does [from_buffer] on
    an animation that holds such an entry.  Writing a sound whose name is
    unknown raises KeyError before a byte is written.  [pack_buffer] on an
    animation that holds such a sound returns no bytes; it raises KeyError
    when the header can be written (at most 65535 sounds, [unk2] and
    [unk3] of one byte) and every sound has attributes of the data model
    and a name that either resolves to an ID of 32 bits or is unknown. *)
Theorem unknown_sound_aborts (t : JAUSoundIdTable) (big : bool) :
  (forall data o,
      (o + 32 <= length data)%nat ->
      is_ok (find_name t (word_at big data o 4)) = false ->
      Sound_unpack data (Z.of_nat o) big t = Raise KeyError)
  /\ (forall B o N k,
         (o + 8 + 32 * (k + 1) <= length B)%nat ->
         word_at big B o 2 = Z.of_nat N ->
         (k < N)%nat ->
         is_ok (find_name t (entry_id big B o k)) = false ->
         from_buffer t B (Z.of_nat o) big = Raise KeyError)
  /\ (forall s data off,
         find_id t (sound s) = Raise KeyError ->
         Sound_pack s data off big t = Raise KeyError)
  /\ (forall A,
         _lookup_ A = t ->
         (exists s, In s (sounds A) /\ find_id t (sound s) = Raise KeyError) ->
         is_ok (pack_buffer A big) = false
         /\ (Z.of_nat (length (sounds A)) <= 65535 ->
             is_uint 1 (unk2 A) = true ->
             is_uint 1 (unk3 A) = true ->
             (forall s, In s (sounds A) ->
                        well_typed_fields s = true
                        /\ (is_sound_name t (sound s) = true
                            \/ find_id t (sound s) = Raise KeyError)) ->
             pack_buffer A big = Raise KeyError)).
Proof.
  split; [|split; [|split]].
  - intros data o Hlen Hbad. rewrite Sound_unpack_inside by assumption.
    pose proof (Sound_unpack_lookup (slice data o 32) big t
                  ltac:(apply length_slice; lia)) as H.
    rewrite word_at_slice, Nat.add_0_r in H by lia.
    destruct (find_name t (word_at big data o 4)) as [|e] eqn:Hn; [discriminate|].
    apply find_name_raise in Hn. now subst e.
  - intros B o N k Hlen Hn Hk Hbad.
    rewrite (from_buffer_prefix t B o N (k + 1)) by (auto; lia).
    rewrite (collect_raise_only (entry_sound t big B o) (seq 0 (k + 1)) KeyError);
      [reflexivity | |].
    + intros j e Hj He. apply in_seq_0 in Hj.
      eapply (entry_sound_raise t big B o j); [lia | exact He].
    + exists k. split; [apply in_seq_0; lia|].
      now rewrite entry_sound_ok by lia.
  - intros s data off Hbad. unfold Sound_pack. now rewrite Hbad.
  - intros A <- (s & Hin & Hbad). unfold pack_buffer. rewrite makebin_bytes.
    split.
    + destruct (pack_codes big animation_codes _); [|reflexivity]. cbn [bind].
      assert (H : is_ok (collect (Sound_bytes (_lookup_ A) big) (sounds A)) = false).
      { apply collect_not_ok. exists s. split; [assumption|].
        now rewrite (Sound_bytes_unknown _ _ _ _ Hbad). }
      destruct (collect _ _); [discriminate | reflexivity].
    + intros Hn H2 H3 Hall.
      destruct (header_pack big _ _ _ Hn H2 H3) as (h & -> & _). cbn [bind].
      rewrite (collect_raise_only (Sound_bytes (_lookup_ A) big) (sounds A) KeyError);
        [reflexivity | |].
      * intros x e Hx He. destruct (Hall x Hx) as [Hf [Hname | Hname]].
        -- destruct (Sound_bytes_well_typed (_lookup_ A) big x) as (b & Hb);
             [unfold well_typed_sound; now rewrite Hname, Hf | congruence].
        -- rewrite (Sound_bytes_unknown _ _ _ _ Hname) in He. congruence.
      * exists s. split; [assumption|].
        now rewrite (Sound_bytes_unknown _ _ _ _ Hbad).
Qed.

End UnknownSounds.

(** ** The lookup table and the JSON helpers *)

Section TableAndJson.
Context {FC : FloatCodec}.

Lemma dict_get_set (d : JAUSoundIdTable) (k : string) (v : Z) :
  dict_get (dict_set d k v) k = Ok v.
Proof.
  induction d as [|[k' v'] d IH]; simpl.
  - now rewrite String.eqb_refl.
  - destruct (String.eqb k' k) eqn:E; simpl; rewrite E; [reflexivity | exact IH].
Qed.


Lemma from_json_sound_dump (s : JAUSoundAnimationSound) :
  from_json_sound (PDict (Sound_dict s)) = Ok (reloaded s).
Proof. reflexivity. Qed.

Lemma from_json_loop_dump (ss : list JAUSoundAnimationSound) :
  forall acc,
    from_json_loop (map (fun s => PDict (Sound_dict s)) ss) acc
    = Ok (acc ++ map reloaded ss).
Proof.
  induction ss as [|s ss IH]; intros acc; cbn [map from_json_loop].
  - now rewrite app_nil_r.
  - rewrite from_json_sound_dump. cbn [bind]. rewrite IH.
    now rewrite <- app_assoc.
Qed.

(** C4, what the code does.  Loading what [dump_json] wrote gives back
    [unk2], [unk3] and, of every sound, the attributes from [unk8] to
    [unk19]; the name is replaced by the start frame and the start frame
    by the default [0.0].  So no sound whose name is a string comes back
    as it was. *)
Theorem from_json_of_dump_json (t : JAUSoundIdTable) (A : JAUSoundAnimation) :
  from_json t (dump_json A)
  = Ok {| _lookup_ := t;
          unk2 := unk2 A;
          unk3 := unk3 A;
          sounds := map reloaded (sounds A) |}
  /\ forall s name, In s (sounds A) -> sound s = PStr name -> reloaded s <> s.
Proof.
  split.
  - unfold from_json, dump_json.
    cbn [py_getitem assoc_get String.eqb Ascii.eqb Bool.eqb bind py_iter].
    now rewrite from_json_loop_dump.
  - intros s name _ Hname Heq.
    assert (H1 : sound (reloaded s) = sound s) by now rewrite Heq.
    assert (H2 : start_frame (reloaded s) = start_frame s) by now rewrite Heq.
    cbn [reloaded sound start_frame] in H1, H2. congruence.
Qed.

Lemma length_split (sep : ascii) (s : string) :
  length (split sep s) = S (count_char sep s).
Proof.
  induction s as [|a s IH]; [reflexivity|].
  cbn [split count_char]. destruct (Ascii.eqb a sep); cbn [length Nat.add].
  - now rewrite IH.
  - destruct (split sep s); [discriminate | exact IH].
Qed.

Lemma digit_is_not_space (a : ascii) (d : nat) :
  digit_of_ascii a = Some d -> is_space a = false.
Proof.
  destruct a as [[] [] [] [] [] [] [] []]; try discriminate; reflexivity.
Qed.

Lemma rstrip_digits (s : string) :
  forall acc b z, parse_digits s acc b = Some z -> rstrip is_space s = s.
Proof.
  induction s as [|a s IH]; intros acc b z H; [reflexivity|].
  cbn [parse_digits] in H. cbn [rstrip].
  destruct (digit_of_ascii a) as [d|] eqn:Ed.
  - rewrite (IH _ _ _ H). destruct s; [|reflexivity].
    now rewrite (digit_is_not_space a d Ed).
  - destruct (Ascii.eqb a "_" && b) eqn:E; [|discriminate].
    rewrite (IH _ _ _ H). destruct s; [discriminate | reflexivity].
Qed.

(** [int] accepts a minus sign before the digits. *)
Lemma int_of_str_negative (r : string) (z : Z) :
  parse_digits r 0 false = Some z ->
  int_of_str (String "-" r) = Some (- z).
Proof.
  intros H. unfold int_of_str, strip. cbn [lstrip].
  change (is_space "-") with false. cbn [rstrip].
  rewrite (rstrip_digits r _ _ _ H).
  destruct r as [|a r]; [discriminate|].
  now rewrite H.
Qed.

Lemma table_load_bad (lines : list string) :
  forall d, forallb line_ok lines = false -> table_load d lines = Raise ValueError.
Proof.
  induction lines as [|l lines IH]; intros d H; [discriminate|].
  cbn [forallb] in H. cbn [table_load]. unfold table_add_line.
  unfold line_ok in H.
  destruct (split _ _) as [|a [|b [|c fs]]]; try reflexivity.
  destruct (int_of_str b); [|reflexivity]. cbn [bind andb] in *. auto.
Qed.

(** C9, as the code has it.  The constructor raises FileNotFoundError
    when the file does not exist, and ValueError when some line does not
    hold exactly one comma or holds an ID field [int] refuses.  [int]
    takes a minus sign: an ID field made of a minus sign and digits is
    accepted and the negative ID is stored. *)
Theorem table_construction :
  JAUSoundIdTable_init Missing = Raise FileNotFoundError
  /\ (forall lines, forallb line_ok lines = false ->
                    JAUSoundIdTable_init (Lines lines) = Raise ValueError)
  /\ (forall field, line_ok field = true ->
                    count_char "," (strip is_crlf field) = 1%nat)
  /\ (forall r z, parse_digits r 0 false = Some z ->
                  int_of_str (String "-" r) = Some (- z))
  /\ JAUSoundIdTable_init (Lines ["a,-5"%string]) = Ok [("a"%string, -5)].
Proof.
  split; [reflexivity|].
  split; [intros; now apply table_load_bad|].
  split; [|split; [exact int_of_str_negative | reflexivity]].
  intros field H. unfold line_ok in H.
  pose proof (length_split "," (strip is_crlf field)) as Hl.
  destruct (split _ _) as [|a [|b [|c fs]]]; try discriminate.
  cbn [length] in Hl. congruence.
Qed.

End TableAndJson.

(** ** IEEE floats: facts *)

Section IEEEFacts.
Import IEEE.

(** The powers of two with a literal exponent, as numerals. *)
Ltac pow_consts :=
  repeat match goal with
         | |- context [2 ^ ?n] =>
             lazymatch n with
             | Zpos _ => let v := eval vm_compute in (2 ^ n) in change (2 ^ n) with v in *
             end
         | H : context [2 ^ ?n] |- _ =>
             lazymatch n with
             | Zpos _ => let v := eval vm_compute in (2 ^ n) in change (2 ^ n) with v in *
             end
         end.

Lemma fields64 (s e m : Z) :
  0 <= s <= 1 -> 0 <= e < 2048 -> 0 <= m < 2 ^ 52 ->
  join64 s e m / 2 ^ 63 = s
  /\ (join64 s e m / 2 ^ 52) mod 2048 = e
  /\ join64 s e m mod 2 ^ 52 = m.
Proof.
  unfold join64. intros. pow_consts.
  repeat split; Z.div_mod_to_equations; lia.
Qed.

Lemma fields32 (s e m : Z) :
  0 <= s <= 1 -> 0 <= e < 256 -> 0 <= m < 2 ^ 23 ->
  join32 s e m / 2 ^ 31 = s
  /\ (join32 s e m / 2 ^ 23) mod 256 = e
  /\ join32 s e m mod 2 ^ 23 = m.
Proof.
  unfold join32. intros. pow_consts.
  repeat split; Z.div_mod_to_equations; lia.
Qed.

Lemma split32 (w : Z) :
  0 <= w < 2 ^ 32 ->
  w = join32 (w / 2 ^ 31) ((w / 2 ^ 23) mod 256) (w mod 2 ^ 23)
  /\ 0 <= w / 2 ^ 31 <= 1
  /\ 0 <= (w / 2 ^ 23) mod 256 < 256
  /\ 0 <= w mod 2 ^ 23 < 2 ^ 23.
Proof.
  unfold join32. intros. pow_consts.
  repeat split; Z.div_mod_to_equations; lia.
Qed.

(** A multiple of [2 ^ sh] is divided without rounding. *)
Lemma rne_exact (x sh : Z) : 0 < sh -> rne (x * 2 ^ sh) sh = x.
Proof.
  intros H. unfold rne.
  assert (Hp : 0 < 2 ^ sh) by (apply Z.pow_pos_nonneg; lia).
  assert (Hh : 0 < 2 ^ (sh - 1)) by (apply Z.pow_pos_nonneg; lia).
  rewrite Z.div_mul, Z.mod_mul by lia.
  destruct (0 <? 2 ^ (sh - 1)) eqn:E; [reflexivity | lia].
Qed.

(** [f32_of_f64] on a pattern given by its fields. *)
Lemma f32_of_f64_join (s e m : Z) :
  0 <= s <= 1 -> 0 <= e < 2048 -> 0 <= m < 2 ^ 52 ->
  f32_of_f64 (join64 s e m)
  = if e =? 2047 then
      if m =? 0 then Some (join32 s 255 0)
      else Some (join32 s 255 (if m / 2 ^ 29 <? 2 ^ 22 then m / 2 ^ 29 + 2 ^ 22
                               else m / 2 ^ 29))
    else if e =? 0 then Some (join32 s 0 0)
    else if -126 <=? e - 1023 then
      if 255 * 2 ^ 23 <=? (e - 1023 + 126) * 2 ^ 23 + rne (2 ^ 52 + m) 29 then None
      else Some (s * 2 ^ 31 + ((e - 1023 + 126) * 2 ^ 23 + rne (2 ^ 52 + m) 29))
    else Some (s * 2 ^ 31 + rne (2 ^ 52 + m) (-97 - (e - 1023))).
Proof.
  intros Hs He Hm. unfold f32_of_f64.
  destruct (fields64 s e m Hs He Hm) as (-> & -> & ->). reflexivity.
Qed.

(** A binary32 pattern widened and narrowed comes back, with the quiet
    bit set when it was a signalling NaN. *)
Lemma narrow_widen (w : Z) :
  0 <= w < 2 ^ 32 -> f32_of_f64 (f64_of_f32 w) = Some (quiet32 w).
Proof.
  intros Hw. destruct (split32 w Hw) as (Hj & Hs & He & Hm).
  unfold quiet32, is_snan32, f64_of_f32.
  set (s := w / 2 ^ 31) in *. set (e := (w / 2 ^ 23) mod 256) in *.
  set (m := w mod 2 ^ 23) in *.
  clearbody s e m. subst w. clear Hw.
  destruct (e =? 255) eqn:E255; [apply Z.eqb_eq in E255 | apply Z.eqb_neq in E255].
  - destruct (m =? 0) eqn:Em; [apply Z.eqb_eq in Em | apply Z.eqb_neq in Em]; cbn [negb andb].
    + rewrite f32_of_f64_join by (pow_consts; lia). cbn. rewrite E255, Em. reflexivity.
    + assert (Hp : 0 <= (if m * 2 ^ 29 <? 2 ^ 51 then m * 2 ^ 29 + 2 ^ 51 else m * 2 ^ 29) < 2 ^ 52
                   /\ (if m * 2 ^ 29 <? 2 ^ 51 then m * 2 ^ 29 + 2 ^ 51 else m * 2 ^ 29) <> 0).
      { destruct (m * 2 ^ 29 <? 2 ^ 51) eqn:E; pow_consts; lia. }
      rewrite f32_of_f64_join by (pow_consts; lia).
      change (2047 =? 2047) with true. cbv iota.
      destruct (_ =? 0) eqn:E0; [apply Z.eqb_eq in E0; lia|]. clear E0.
      f_equal. rewrite E255. unfold join32.
      destruct (m <? 2 ^ 22) eqn:Eq; destruct (m * 2 ^ 29 <? 2 ^ 51) eqn:E;
        pow_consts; try lia.
      * replace ((m * 536870912 + 2251799813685248) / 536870912) with (m + 4194304)
          by (Z.div_mod_to_equations; lia).
        destruct (m + 4194304 <? 4194304) eqn:E'; lia.
      * rewrite Z.div_mul by lia. destruct (m <? 4194304) eqn:E'; lia.
  - cbn [andb].
    destruct (e =? 0) eqn:E0; [apply Z.eqb_eq in E0 | apply Z.eqb_neq in E0].
    + destruct (m =? 0) eqn:Em; [apply Z.eqb_eq in Em | apply Z.eqb_neq in Em].
      * rewrite f32_of_f64_join by (pow_consts; lia). cbn. rewrite E0, Em. reflexivity.
      * assert (Hk : 0 <= Z.log2 m < 23).
        { split; [apply Z.log2_nonneg|]. apply Z.log2_lt_pow2; lia. }
        destruct (Z.log2_spec m ltac:(lia)) as [Hk1 Hk2].
        set (k := Z.log2 m) in *.
        assert (HP : 2 ^ k * 2 ^ (52 - k) = 2 ^ 52).
        { rewrite <- Z.pow_add_r by lia. f_equal. lia. }
        assert (HP0 : 0 < 2 ^ (52 - k)) by (apply Z.pow_pos_nonneg; lia).
        replace (Z.succ k) with (k + 1) in Hk2 by lia.
        rewrite Z.pow_add_r in Hk2 by lia. change (2 ^ 1) with 2 in Hk2.
        assert (Hm64 : 0 <= (m - 2 ^ k) * 2 ^ (52 - k) < 2 ^ 52).
        { split; [apply Z.mul_nonneg_nonneg; lia|]. rewrite <- HP.
          apply Z.mul_lt_mono_pos_r; lia. }
        rewrite f32_of_f64_join by lia.
        destruct (k + 874 =? 2047) eqn:Ea; [apply Z.eqb_eq in Ea; lia|].
        destruct (k + 874 =? 0) eqn:Eb; [apply Z.eqb_eq in Eb; lia|].
        destruct (-126 <=? k + 874 - 1023) eqn:Ec; [apply Z.leb_le in Ec; lia|].
        replace (2 ^ 52 + (m - 2 ^ k) * 2 ^ (52 - k)) with (m * 2 ^ (52 - k))
          by (rewrite <- HP; ring).
        replace (-97 - (k + 874 - 1023)) with (52 - k) by lia.
        rewrite rne_exact by lia. f_equal. rewrite E0.
        unfold join32. lia.
    + assert (Hm64 : 0 <= m * 2 ^ 29 < 2 ^ 52) by (pow_consts; lia).
      rewrite f32_of_f64_join by lia.
      destruct (e + 896 =? 2047) eqn:Ea; [apply Z.eqb_eq in Ea; lia|].
      destruct (e + 896 =? 0) eqn:Eb; [apply Z.eqb_eq in Eb; lia|].
      destruct (-126 <=? e + 896 - 1023) eqn:Ec; [|apply Z.leb_gt in Ec; lia].
      replace (2 ^ 52 + m * 2 ^ 29) with ((2 ^ 23 + m) * 2 ^ 29)
        by (pow_consts; lia).
      rewrite rne_exact by lia.
      destruct (255 * 2 ^ 23 <=? _) eqn:Ed; [apply Z.leb_le in Ed; pow_consts; lia|].
      f_equal. unfold join32. pow_consts. lia.
Qed.

Lemma quiet32_range (w : Z) : 0 <= w < 2 ^ 32 -> 0 <= quiet32 w < 2 ^ 32.
Proof.
  intros Hw. unfold quiet32, is_snan32.
  destruct ((w / 2 ^ 23) mod 256 =? 255) eqn:E1; cbn [andb]; [|lia].
  destruct (w mod 2 ^ 23 =? 0) eqn:E2; cbn [negb andb]; [lia|].
  destruct (w mod 2 ^ 23 <? 2 ^ 22) eqn:E3; [|lia].
  apply Z.eqb_eq in E1. apply Z.ltb_lt in E3. pow_consts.
  Z.div_mod_to_equations. lia.
Qed.

Lemma widen_quiet (w : Z) :
  0 <= w < 2 ^ 32 -> f64_of_f32 (quiet32 w) = f64_of_f32 w.
Proof.
  intros Hw. unfold quiet32. destruct (is_snan32 w) eqn:E; [|reflexivity].
  unfold is_snan32 in E.
  apply andb_prop in E as [E E3]. apply andb_prop in E as [E1 E2].
  apply Z.eqb_eq in E1. apply negb_true_iff in E2. apply Z.eqb_neq in E2.
  apply Z.ltb_lt in E3.
  destruct (split32 w Hw) as (Hj & Hs & He & Hm).
  set (s := w / 2 ^ 31) in *. set (m := w mod 2 ^ 23) in *. rewrite E1 in Hj.
  assert (Hq : w + 2 ^ 22 = join32 s 255 (m + 2 ^ 22)) by (rewrite Hj at 1; unfold join32; lia).
  rewrite Hq. unfold f64_of_f32 at 1.
  destruct (fields32 s 255 (m + 2 ^ 22)) as (-> & -> & ->); try (pow_consts; lia).
  unfold f64_of_f32. fold s m. rewrite E1. cbn [Z.eqb Pos.eqb].
  destruct (m + 2 ^ 22 =? 0) eqn:Ea; [apply Z.eqb_eq in Ea; pow_consts; lia|].
  destruct (m =? 0) eqn:Eb; [apply Z.eqb_eq in Eb; lia|].
  f_equal.
  destruct ((m + 2 ^ 22) * 2 ^ 29 <? 2 ^ 51) eqn:Ec;
    destruct (m * 2 ^ 29 <? 2 ^ 51) eqn:Ed; pow_consts; lia.
Qed.

(** Every pattern but a signalling NaN is stable. *)
Lemma ieee_stable (w : Z) :
  0 <= w < 2 ^ 32 -> is_snan32 w = false -> f32_stable (FC := ieee) w.
Proof.
  intros Hw Hn. unfold f32_stable.
  change (f32_of_f64 (f64_of_f32 w) = Some w).
  rewrite narrow_widen by assumption. unfold quiet32. now rewrite Hn.
Qed.

(** Every float read from a binary32 pattern is read back as written. *)
Lemma ieee_faithful (w : Z) :
  0 <= w < 2 ^ 32 -> f32_faithful (FC := ieee) (PFloat (f64_of_f32 w)).
Proof.
  intros Hw. exists (quiet32 w). split.
  - exact (narrow_widen w Hw).
  - change (f64_of_f32 (quiet32 w mod 2 ^ 32) = f64_of_f32 w).
    rewrite Z.mod_small by now apply quiet32_range.
    now apply widen_quiet.
Qed.

(** So are the floats of every animation [from_buffer] returns. *)
Lemma ieee_decoded_faithful (t : JAUSoundIdTable) (B : list byte) (off : Z)
    (big : bool) (A : JAUSoundAnimation (FC := ieee)) :
  from_buffer t B off big = Ok A -> Forall faithful_floats (sounds A).
Proof.
  intros H. apply from_buffer_ok in H as (hdr & ss & _ & -> & _ & Hall).
  cbn [sounds]. eapply Forall_impl; [|exact Hall].
  intros s (big' & slot & Hl & Hs). rewrite Sound_unpack_slot in Hs by assumption.
  explode slot of Hl into 32.
  cbn [Sound_assign unpack_codes sound_codes unpack_code code_size firstn skipn] in Hs.
  match type of Hs with
  | context [find_name t ?i] => destruct (find_name t i); [|discriminate]
  end.
  injection Hs as <-.
  repeat split; cbn [start_frame unk8 pitch];
    apply ieee_faithful; apply (uint_value_bound big' [_; _; _; _]).
Qed.

(** A signalling NaN is written back with its quiet bit set. *)
Lemma signalling_nan_is_quieted :
  f32_of_f64 (f64_of_f32 0x7F800001) = Some 0x7FC00001.
Proof. reflexivity. Qed.

End IEEEFacts.

(** ** The properties on the sample data *)

(** The formats of the source compile to the records used above. *)
Lemma compile_sound_formats :
  compile ">I3fI6B6x" = Some SOUND_STRUCT_BE
  /\ compile "<I3fI6B6x" = Some SOUND_STRUCT_LE
  /\ compile ">H2B4x" = Some ANIMATION_STRUCT_BE
  /\ compile "<H2B4x" = Some ANIMATION_STRUCT_LE.
Proof. repeat split. Qed.

(** The sample tables are what the constructor builds. *)
Lemma sample_table_is_built :
  JAUSoundIdTable_init (Lines ["a,5"; "b,7"]%string) = Ok Sample.table
  /\ JAUSoundIdTable_init (Lines [",0"]%string) = Ok Sample.table_of_fresh.
Proof. split; reflexivity. Qed.

(** The sample buffer decodes to the sample animation. *)
Lemma sample_buffer_decodes :
  from_buffer Sample.table Sample.buffer 0 true = Ok Sample.animation.
Proof. reflexivity. Qed.

(** C1 on the sample buffer. *)
Lemma reencode_is_byte_exact_witness :
  exists A, from_buffer Sample.table Sample.buffer 0 true = Ok A
            /\ pack_buffer A true = Ok Sample.buffer.
Proof.
  apply (reencode_is_byte_exact Sample.table Sample.buffer 1 true).
  - reflexivity.
  - reflexivity.
  - vm_compute. reflexivity.
  - vm_compute. reflexivity.
  - intros k Hk. assert (k = 0)%nat as -> by lia. vm_compute. repeat split.
  - intros k Hk. assert (k = 0)%nat as -> by lia. vm_compute. reflexivity.
Defined.

(** The claim C1 as stated fails: the buffer holds [8 + 32 * 1] bytes,
    declares one entry, has zero pad bytes and a sound ID the table
    resolves, and its start frame is the signalling NaN 7F800001; decoded
    and encoded again with IEEE floats, the start frame is 7FC00001. *)
Lemma signalling_nan_is_not_reencoded :
  length MoreSamples.snan_buffer = (8 + 32 * 1)%nat
  /\ word_at true MoreSamples.snan_buffer 0 2 = 1
  /\ slice MoreSamples.snan_buffer 4 4 = repeat Byte.x00 4
  /\ slice MoreSamples.snan_buffer (8 + 26) 6 = repeat Byte.x00 6
  /\ find_name Sample.table (entry_id true MoreSamples.snan_buffer 0 0)
     = Ok "b"%string
  /\ exists A : JAUSoundAnimation (FC := ieee),
       from_buffer Sample.table MoreSamples.snan_buffer 0 true = Ok A
       /\ pack_buffer A true = Ok MoreSamples.quieted_buffer
       /\ MoreSamples.quieted_buffer <> MoreSamples.snan_buffer.
Proof.
  repeat (split; [reflexivity|]).
  eexists. split; [reflexivity|]. split; [reflexivity | discriminate].
Qed.

(** The integer [2 ^ 128] is too large for binary32: given as an [int]
    the code [f] raises struct.error, given as a float OverflowError. *)
Lemma too_large_for_binary32 :
  pack_float (FC := ieee) true (PInt (2 ^ 128)) = Raise StructError
  /\ match float_of_int (2 ^ 128) with
     | Some x => pack_float (FC := ieee) true (PFloat x) = Raise OverflowError
     | None => False
     end.
Proof. split; reflexivity. Qed.

(** C2 on the sample animation, re-encoded little-endian. *)
Lemma decode_of_encode_is_identity_witness :
  exists bs, pack_buffer Sample.animation false = Ok bs
             /\ from_buffer Sample.table bs 0 false = Ok Sample.animation.
Proof.
  apply (decode_of_encode_is_identity Sample.table Sample.buffer 0 true false
           Sample.animation).
  - reflexivity.
  - reflexivity.
  - repeat constructor; eexists; split; reflexivity.
Defined.

(** C10 on the sample buffer, alone and inside a longer buffer. *)
Lemma decode_reads_its_window_witness :
  from_buffer Sample.table Sample.buffer (Z.of_nat 0) true
  = from_buffer Sample.table Sample.padded_buffer (Z.of_nat 40) true.
Proof.
  destruct (decode_reads_its_window Sample.table Sample.buffer
              Sample.padded_buffer 0 40 1 true) as [H _].
  - vm_compute. lia.
  - vm_compute. lia.
  - vm_compute. reflexivity.
  - vm_compute. reflexivity.
  - exact H.
Defined.



(** C5 on an animation that holds a fresh sound the table does not name. *)
Lemma unknown_sound_aborts_witness :
  pack_buffer Sample.animation_with_stranger true = Raise KeyError.
Proof.
  destruct (unknown_sound_aborts Sample.table true) as (_ & _ & _ & H).
  destruct (H Sample.animation_with_stranger) as [_ H'].
  - reflexivity.
  - exists Sound_init. split; [right; left; reflexivity | reflexivity].
  - apply H'.
    + vm_compute. discriminate.
    + reflexivity.
    + reflexivity.
    + intros s [<- | [<- | []]]; (split; [vm_compute; reflexivity|]).
      * left. reflexivity.
      * right. reflexivity.
Defined.

(** The claim C5 as stated fails for encoding: the 65536 sounds have a
    name the table does not hold, and encoding raises struct.error, not
    KeyError, because the header is written before any name is looked
    up. *)
Lemma crowd_of_strangers_raises_struct_error :
  (exists s, In s (sounds Sample.crowd_of_strangers)
             /\ find_id (_lookup_ Sample.crowd_of_strangers) (sound s)
                = Raise KeyError)
  /\ pack_buffer Sample.crowd_of_strangers true = Raise StructError
  /\ pack_buffer Sample.crowd_of_strangers true <> Raise KeyError.
Proof.
  assert (H : pack_buffer Sample.crowd_of_strangers true = Raise StructError).
  { apply makebin_too_many. cbn [sounds Sample.crowd_of_strangers].
    rewrite repeat_length, Z2Nat.id; lia. }
  split; [|split; [exact H | rewrite H; discriminate]].
  exists Sound_init. split; [|reflexivity].
  cbn [sounds Sample.crowd_of_strangers].
  replace (Z.to_nat 65536) with (S (Z.to_nat 65535)) by lia. now left.
Qed.

(** C7 on the sample animation. *)
Lemma makebin_length_and_count_witness :
  exists bs, pack_buffer Sample.animation true = Ok bs
             /\ length bs = (8 + 32 * length (sounds Sample.animation))%nat
             /\ word_at true bs 0 2 = Z.of_nat (length (sounds Sample.animation)).
Proof.
  destruct (makebin_length_and_count Sample.animation true) as [H _].
  apply H.
  - vm_compute. reflexivity.
  - vm_compute. discriminate.
Defined.

(** The claim C7 as stated fails: 65536 sounds of the data model whose
    names resolve are not encoded; the count does not fit the header. *)
Lemma crowd_is_not_encoded :
  (forall s, In s (sounds Sample.crowd) ->
             well_typed_sound (_lookup_ Sample.crowd) s = true)
  /\ length (sounds Sample.crowd) = Z.to_nat 65536
  /\ pack_buffer Sample.crowd true = Raise StructError.
Proof.
  cbn [sounds Sample.crowd]. split; [|split].
  - intros s Hs. apply repeat_spec in Hs. subst s. vm_compute. reflexivity.
  - apply repeat_length.
  - apply makebin_too_many. cbn [sounds Sample.crowd].
    rewrite repeat_length, Z2Nat.id; lia.
Qed.

(** C8 on the sample animation, whose bytes are the sample buffer. *)
Lemma padding_is_zero_witness :
  length Sample.buffer = (8 + 32 * length (sounds Sample.animation))%nat
  /\ slice Sample.buffer 4 4 = repeat Byte.x00 4
  /\ forall k, (k < length (sounds Sample.animation))%nat ->
               slice Sample.buffer (8 + 32 * k + 26) 6 = repeat Byte.x00 6.
Proof.
  destruct (padding_is_zero Sample.animation true) as [H _].
  apply H. vm_compute. reflexivity.
Defined.


(** C4 on the sample animation: the name ["b"] comes back as the float
    1.0 and the start frame 1.0 as 0.0. *)
Lemma from_json_of_dump_json_witness :
  from_json Sample.table (dump_json Sample.animation)
  = Ok {| _lookup_ := Sample.table;
          unk2 := PInt 2;
          unk3 := PInt 3;
          sounds :=
            [{| sound := PFloat 0x3FF0000000000000;
                start_frame := PFloat 0;
                unk8 := PFloat 0;
                pitch := PFloat 0x4000000000000000;
                flags := PInt 9;
                volume := PInt 1;
                pitch_factor := PInt 2;
                unk16 := PInt 3;
                pan := PInt 4;
                volume_factor := PInt 5;
                unk19 := PInt 6 |}] |}
  /\ from_json Sample.table (dump_json Sample.animation) <> Ok Sample.animation.
Proof.
  destruct (from_json_of_dump_json Sample.table Sample.animation) as [H Hne].
  split; [exact H|].
  rewrite H. intros Heq. injection Heq as Heq _. discriminate Heq.
Defined.

(** C9 on a line without a comma, a line whose ID is not a number, and a
    negative literal. *)
Lemma table_construction_witness :
  JAUSoundIdTable_init (Lines ["a,5"; "b"; "c,7"]%string) = Raise ValueError
  /\ JAUSoundIdTable_init (Lines ["a,5"; "b,x"]%string) = Raise ValueError
  /\ int_of_str "-12" = Some (-12).
Proof.
  destruct table_construction as (_ & H & _ & Hneg & _).
  split; [apply H; reflexivity|].
  split; [apply H; reflexivity|].
  apply (Hneg "12"%string 12). reflexivity.
Defined.

(** The claim C9 as stated fails: a line whose ID field is negative is
    accepted and the table is built. *)
Lemma negative_id_is_accepted :
  JAUSoundIdTable_init (Lines ["a,-5"%string]) = Ok [("a"%string, -5)].
Proof. reflexivity. Qed.

(** ** Further properties of the lookup table *)

Section TableProperties.
Context {FC : FloatCodec}.




(** X1.  In a table with no name twice, the name found for an ID is
    mapped to that ID. *)
Theorem found_name_maps_back (t : JAUSoundIdTable) (sound_id : Z) (name : string) :
  is_dict t = true ->
  find_name t sound_id = Ok name ->
  find_id t (PStr name) = Ok sound_id.
Proof.
  intros Hd H. cbn [find_id]. apply dict_get_in; [assumption|].
  now apply find_name_in.
Qed.


Lemma is_dict_NoDup (t : JAUSoundIdTable) :
  is_dict t = true -> NoDup (map fst t).
Proof.
  induction t as [|[k v] t IH]; simpl; intros H; [constructor|].
  apply andb_prop in H as [Hk Hd]. apply negb_true_iff in Hk.
  constructor; [|auto].
  intros Hin. apply in_map_iff in Hin as ([k' v'] & Hk' & Hin). simpl in Hk'. subst k'.
  assert (existsb (fun kv => String.eqb (fst kv) k) t = true) as Hex; [|congruence].
  apply existsb_exists. exists (k, v'). split; [assumption | apply String.eqb_refl].
Qed.

(** X3.  Whatever the lines of the file, the table the constructor builds
    holds no name twice. *)
Theorem constructed_table_has_distinct_names (f : lookup_file) (t : JAUSoundIdTable) :
  JAUSoundIdTable_init f = Ok t -> NoDup (map fst t).
Proof.
  intros H. apply is_dict_NoDup.
  destruct f as [|lines]; [discriminate|].
  cbn [JAUSoundIdTable_init] in H.
  eapply table_load_is_dict; [|exact H]. reflexivity.
Qed.

Lemma table_add_line_parse (d : JAUSoundIdTable) (field : string) :
  table_add_line d field
  = match parse_line field with
    | Some (name, sound_id) => Ok (dict_set d name sound_id)
    | None => Raise ValueError
    end.
Proof.
  unfold table_add_line, parse_line.
  destruct (split _ _) as [|a [|b [|c l]]]; try reflexivity.
  destruct (int_of_str b); reflexivity.
Qed.

Lemma dict_get_set_other (d : JAUSoundIdTable) (k k' : string) (v : Z) :
  k <> k' -> dict_get (dict_set d k v) k' = dict_get d k'.
Proof.
  intros Hk. induction d as [|[k0 v0] d IH]; simpl.
  - destruct (String.eqb k k') eqn:E; [apply String.eqb_eq in E; contradiction | reflexivity].
  - destruct (String.eqb k0 k) eqn:E; simpl.
    + apply String.eqb_eq in E. subst k0.
      destruct (String.eqb k k') eqn:E'; [apply String.eqb_eq in E'; contradiction | reflexivity].
    + destruct (String.eqb k0 k'); [reflexivity | exact IH].
Qed.

Lemma table_load_app (l1 l2 : list string) :
  forall d, table_load d (l1 ++ l2) = (d' <- table_load d l1 ;; table_load d' l2).
Proof.
  induction l1 as [|l l1 IH]; intros d; [reflexivity|].
  cbn [app table_load]. destruct (table_add_line d l); cbn [bind]; auto.
Qed.

Lemma table_load_keeps (lines : list string) (name : string) :
  forall d t,
    table_load d lines = Ok t ->
    (forall l n i, In l lines -> parse_line l = Some (n, i) -> n <> name) ->
    dict_get t name = dict_get d name.
Proof.
  induction lines as [|l lines IH]; intros d t H Hother.
  - now injection H as <-.
  - cbn [table_load] in H. apply bind_ok in H as (d' & Hd' & H).
    rewrite (IH d' t H) by (intros; eapply Hother; eauto; now right).
    rewrite table_add_line_parse in Hd'.
    destruct (parse_line l) as [[n i]|] eqn:Hp; [|discriminate].
    injection Hd' as <-. apply dict_get_set_other.
    eapply Hother; [now left | eassumption].
Qed.

(** X4.  The last line that names a sound decides its ID: when the file
    loads and no line after [l] gives the name of [l], [find_id] returns
    the ID of [l], whatever the lines before it give. *)
Theorem last_line_decides (ls1 ls2 : list string) (l name : string) (sound_id : Z)
    (t : JAUSoundIdTable) :
  JAUSoundIdTable_init (Lines (ls1 ++ l :: ls2)) = Ok t ->
  parse_line l = Some (name, sound_id) ->
  (forall l' n i, In l' ls2 -> parse_line l' = Some (n, i) -> n <> name) ->
  find_id t (PStr name) = Ok sound_id.
Proof.
  intros H Hl Hafter. cbn [JAUSoundIdTable_init] in H.
  rewrite table_load_app in H. apply bind_ok in H as (d1 & _ & H).
  cbn [table_load] in H. apply bind_ok in H as (d2 & Hd2 & H).
  rewrite table_add_line_parse, Hl in Hd2. injection Hd2 as <-.
  cbn [find_id]. rewrite (table_load_keeps ls2 name _ t H Hafter).
  apply dict_get_set.
Qed.

Lemma rstrip_snoc (p : ascii -> bool) (a : ascii) (s : string) :
  p a = true -> rstrip p (s ++ String a EmptyString) = rstrip p s.
Proof.
  intros Ha. induction s as [|b s IH]; cbn [append rstrip].
  - now rewrite Ha.
  - now rewrite IH.
Qed.

Lemma lstrip_snoc (p : ascii -> bool) (a : ascii) (s : string) :
  p a = true ->
  lstrip p (s ++ String a EmptyString)
  = if all_chars p s then EmptyString else (lstrip p s ++ String a EmptyString)%string.
Proof.
  intros Ha. induction s as [|b s IH]; cbn [append lstrip all_chars].
  - now rewrite Ha.
  - destruct (p b); cbn [andb]; [exact IH | reflexivity].
Qed.

Lemma lstrip_all (p : ascii -> bool) (s : string) :
  all_chars p s = true -> lstrip p s = EmptyString.
Proof.
  induction s as [|b s IH]; cbn [lstrip all_chars]; [reflexivity|].
  destruct (p b); cbn [andb]; [exact IH | discriminate].
Qed.

Lemma strip_snoc (p : ascii -> bool) (a : ascii) (s : string) :
  p a = true -> strip p (s ++ String a EmptyString) = strip p s.
Proof.
  intros Ha. unfold strip. rewrite lstrip_snoc by assumption.
  destruct (all_chars p s) eqn:E.
  - now rewrite lstrip_all.
  - now apply rstrip_snoc.
Qed.

(** X5.  A line feed or a carriage return at the end of a line changes
    nothing: the table built from lines is the one built from the same
    lines with such a character added to each.  A line that holds nothing
    but these characters is refused: the constructor returns no table. *)
Theorem line_terminators :
  (forall (a : ascii) (lines : list string),
      is_crlf a = true ->
      JAUSoundIdTable_init
        (Lines (map (fun l => l ++ String a EmptyString)%string lines))
      = JAUSoundIdTable_init (Lines lines))
  /\ (forall (ls1 ls2 : list string) (blank : string),
         all_chars is_crlf blank = true ->
         JAUSoundIdTable_init (Lines (ls1 ++ blank :: ls2)) = Raise ValueError).
Proof.
  split.
  - intros a lines Ha.
    assert (Hp : forall l, parse_line (l ++ String a EmptyString) = parse_line l).
    { intros l. unfold parse_line. now rewrite strip_snoc. }
    cbn [JAUSoundIdTable_init]. generalize (@nil (string * Z)).
    induction lines as [|l lines IH]; intros d; [reflexivity|].
    cbn [map table_load]. rewrite !table_add_line_parse, Hp.
    destruct (parse_line l) as [[n i]|]; cbn [bind]; auto.
  - intros ls1 ls2 blank Hb. apply table_load_bad.
    rewrite forallb_app. cbn [forallb].
    assert (line_ok blank = false) as ->; [|now rewrite andb_false_r].
    unfold line_ok, strip. now rewrite lstrip_all.
Qed.

End TableProperties.

(** ** Further properties of decoding *)

Section FurtherDecoding.
Context {FC : FloatCodec}.

(** X6.  What [from_buffer] returns has the types of the wire: the table
    it was given, [unk2] and [unk3] of one byte, at most 65535 sounds, and
    in every sound a name the table gives for an ID of 32 bits, three
    floats, flags of 32 bits and six values of one byte. *)
Theorem decoded_animation_is_typed (t : JAUSoundIdTable) (B : list byte) (off : Z)
    (big : bool) (A : JAUSoundAnimation) :
  from_buffer t B off big = Ok A ->
  _lookup_ A = t
  /\ is_uint 1 (unk2 A) = true
  /\ is_uint 1 (unk3 A) = true
  /\ Z.of_nat (length (sounds A)) <= 65535
  /\ forall s, In s (sounds A) ->
       (exists name sound_id,
           sound s = PStr name /\ find_name t sound_id = Ok name
           /\ 0 <= sound_id < 2 ^ 32)
       /\ (exists x, start_frame s = PFloat x)
       /\ (exists x, unk8 s = PFloat x)
       /\ (exists x, pitch s = PFloat x)
       /\ is_uint 4 (flags s) = true
       /\ is_uint 1 (volume s) = true
       /\ is_uint 1 (pitch_factor s) = true
       /\ is_uint 1 (unk16 s) = true
       /\ is_uint 1 (pan s) = true
       /\ is_uint 1 (volume_factor s) = true
       /\ is_uint 1 (unk19 s) = true.
Proof.
  intros H. apply from_buffer_ok in H as (hdr & ss & Hl & -> & Hn & Hall).
  cbn [_lookup_ unk2 unk3 sounds].
  split; [reflexivity|].
  split; [apply (unpack_uint_is_uint big 1); apply length_slice; lia|].
  split; [apply (unpack_uint_is_uint big 1); apply length_slice; lia|].
  split.
  { rewrite Hn. pose proof (uint_value_bound big (slice hdr 0 2)) as Hb.
    rewrite length_slice in Hb by lia. unfold word_at.
    change (2 ^ (8 * Z.of_nat 2)) with 65536 in Hb. lia. }
  intros s Hin. rewrite Forall_forall in Hall.
  destruct (Hall s Hin) as (big' & slot & Hls & Hs).
  rewrite Sound_unpack_slot in Hs by assumption.
  explode slot of Hls into 32.
  cbn [Sound_assign unpack_codes sound_codes unpack_code code_size firstn skipn] in Hs.
  match type of Hs with
  | context [find_name t ?i] => destruct (find_name t i) as [name|] eqn:Hname;
                                 [|discriminate]
  end.
  injection Hs as <-.
  cbn [sound start_frame unk8 pitch flags volume pitch_factor unk16 pan
       volume_factor unk19].
  split.
  { eexists _, _. split; [reflexivity|]. split; [exact Hname|].
    apply (uint_value_bound big' [_; _; _; _]). }
  repeat split; eauto;
    first [ apply (unpack_uint_is_uint big' 4) | apply (unpack_uint_is_uint big' 1) ];
    reflexivity.
Qed.



Lemma locate_from_end (len size k : Z) :
  0 <= size -> 0 < k -> size <= k <= len ->
  locate len size (- k) = locate len size (len - k).
Proof.
  intros Hs Hk Hb. unfold locate.
  destruct (- k <? 0) eqn:E0; [|lia].
  destruct (0 <? - k + size) eqn:E1; [lia|].
  destruct (- k + len <? 0) eqn:E2; [lia|].
  destruct (len - (- k + len) <? size) eqn:E3; [lia|].
  destruct (len - k <? 0) eqn:E4; [lia|].
  destruct (len - (len - k) <? size) eqn:E5; [lia|].
  f_equal. lia.
Qed.

Lemma unpack_from_from_end (st : Struct) (data : list byte) (k : Z) :
  0 < k -> s_size st <= k <= Z.of_nat (length data) ->
  unpack_from st data (- k) = unpack_from st data (Z.of_nat (length data) - k).
Proof.
  intros Hk Hb. unfold unpack_from.
  rewrite locate_from_end; [reflexivity | unfold s_size; lia | lia | lia].
Qed.

Lemma Sound_unpack_from_end (t : JAUSoundIdTable) (data : list byte) (big : bool)
    (k : Z) :
  32 <= k <= Z.of_nat (length data) ->
  Sound_unpack data (- k) big t
  = Sound_unpack data (Z.of_nat (length data) - k) big t.
Proof.
  intros Hb. unfold Sound_unpack. rewrite unpack_from_from_end; [reflexivity | lia |].
  unfold s_size. destruct (sound_struct_codes big) as [-> _].
  change (Z.of_nat (codes_size sound_codes)) with 32. lia.
Qed.

Lemma unpack_loop_from_end (t : JAUSoundIdTable) (data : list byte) (big : bool)
    (n : nat) :
  forall (k : Z) (acc : list JAUSoundAnimationSound),
    32 * Z.of_nat n <= k <= Z.of_nat (length data) ->
    unpack_loop t data big n (- k) acc
    = unpack_loop t data big n (Z.of_nat (length data) - k) acc.
Proof.
  induction n as [|n IH]; intros k acc Hb; [reflexivity|].
  cbn [unpack_loop]. rewrite Sound_unpack_from_end by lia.
  destruct (Sound_unpack _ _ _ _); cbn [bind]; [|reflexivity].
  replace (- k + 32) with (- (k - 32)) by lia.
  replace (Z.of_nat (length data) - k + 32)
    with (Z.of_nat (length data) - (k - 32)) by lia.
  apply IH. lia.
Qed.

(** X8.  A negative offset counts from the end of the buffer: when the
    header and the entries it declares fit in the last [k] bytes,
    decoding at [- k] is decoding at [length - k]. *)
Theorem negative_offset_counts_from_end (t : JAUSoundIdTable) (B : list byte)
    (k N : nat) (big : bool) :
  (8 + 32 * N <= k <= length B)%nat ->
  word_at big B (length B - k) 2 = Z.of_nat N ->
  from_buffer t B (- Z.of_nat k) big
  = from_buffer t B (Z.of_nat (length B - k)) big.
Proof.
  intros Hb Hn. rewrite Nat2Z.inj_sub by lia.
  unfold from_buffer, Animation_unpack.
  rewrite unpack_from_from_end;
    [|lia | unfold s_size; destruct (animation_struct_codes big) as [-> _];
            change (Z.of_nat (codes_size animation_codes)) with 8; lia].
  rewrite <- Nat2Z.inj_sub by lia.
  destruct (animation_struct_codes big) as [Hc Hbig].
  rewrite unpack_from_inside by (rewrite Hc; change (codes_size animation_codes) with 8%nat; lia).
  rewrite Hc, Hbig. change (codes_size animation_codes) with 8%nat.
  rewrite unpack_header by (apply length_slice; lia). cbn [bind].
  rewrite word_at_slice, Nat.add_0_r, Hn, Nat2Z.id by lia.
  cbn [Animation_init sounds _lookup_].
  replace (- Z.of_nat k + 8) with (- (Z.of_nat k - 8)) by lia.
  replace (Z.of_nat (length B - k) + 8)
    with (Z.of_nat (length B) - (Z.of_nat k - 8)) by lia.
  rewrite unpack_loop_from_end by lia. reflexivity.
Qed.

Lemma unpack_loop_acc (t : JAUSoundIdTable) (data : list byte) (big : bool) (n : nat) :
  forall (off : Z) (acc : list JAUSoundAnimationSound),
    unpack_loop t data big n off acc
    = (ss <- unpack_loop t data big n off [] ;; Ok (acc ++ ss)).
Proof.
  induction n as [|n IH]; intros off acc.
  - cbn. now rewrite app_nil_r.
  - cbn [unpack_loop]. destruct (Sound_unpack data off big t) as [s|]; cbn [bind];
      [|reflexivity].
    rewrite IH. rewrite (IH _ ([] ++ [s])).
    destruct (unpack_loop t data big n (off + 32) []); cbn [bind]; [|reflexivity].
    now rewrite <- app_assoc.
Qed.

(** X9.  [_unpack_] appends: run on an animation that already holds
    sounds, it keeps them, puts the sounds it reads after them and takes
    [unk2] and [unk3] from the new header; and when it fails, it fails as
    [from_buffer] does. *)
Theorem unpack_appends (self : JAUSoundAnimation) (data : list byte) (off : Z)
    (big : bool) :
  Animation_unpack self data off big
  = (a <- from_buffer (_lookup_ self) data off big ;;
     Ok {| _lookup_ := _lookup_ self;
           unk2 := unk2 a;
           unk3 := unk3 a;
           sounds := sounds self ++ sounds a |}).
Proof.
  unfold from_buffer, Animation_unpack.
  destruct (unpack_from _ data off) as [vs|]; cbn [bind]; [|reflexivity].
  destruct vs as [|[] [|v2 [|v3 [|v4 vs]]]]; try reflexivity.
  cbn [Animation_init sounds _lookup_].
  rewrite unpack_loop_acc.
  destruct (unpack_loop _ data big _ _ []); reflexivity.
Qed.

Lemma unpack_loop_add (t : JAUSoundIdTable) (data : list byte) (big : bool)
    (n m : nat) :
  forall (off : Z) (acc : list JAUSoundAnimationSound),
    unpack_loop t data big (n + m) off acc
    = (ss <- unpack_loop t data big n off acc ;;
       unpack_loop t data big m (off + 32 * Z.of_nat n) ss).
Proof.
  induction n as [|n IH]; intros off acc.
  - cbn [Nat.add unpack_loop bind]. f_equal. lia.
  - cbn [Nat.add unpack_loop].
    destruct (Sound_unpack data off big t) as [s|]; cbn [bind]; [|reflexivity].
    rewrite IH.
    destruct (unpack_loop t data big n (off + 32) (acc ++ [s])); cbn [bind];
      [|reflexivity].
    f_equal. lia.
Qed.

(** X19.  Entries that run past the end of the buffer are read from its
    start: decoding at the negative offset [- (8 + 32 * j)], where the
    header declares [N >= j] entries, reads the header and [j] entries
    from the last [8 + 32 * j] bytes and the other [N - j] entries from
    the offset 0 on. *)
Theorem negative_offset_wraps (t : JAUSoundIdTable) (B : list byte) (j N : nat)
    (big : bool) :
  (8 + 32 * j <= length B)%nat ->
  (j <= N)%nat ->
  word_at big B (length B - (8 + 32 * j)) 2 = Z.of_nat N ->
  from_buffer t B (- Z.of_nat (8 + 32 * j)) big
  = (ss <- unpack_loop t B big j (Z.of_nat (length B - 32 * j)) [] ;;
     ss' <- unpack_loop t B big (N - j) 0 ss ;;
     Ok {| _lookup_ := t;
           unk2 := PInt (word_at big B (length B - (8 + 32 * j) + 2) 1);
           unk3 := PInt (word_at big B (length B - (8 + 32 * j) + 3) 1);
           sounds := ss' |}).
Proof.
  intros Hb Hj Hn.
  unfold from_buffer, Animation_unpack.
  rewrite unpack_from_from_end;
    [|lia | unfold s_size; destruct (animation_struct_codes big) as [-> _];
            change (Z.of_nat (codes_size animation_codes)) with 8; lia].
  rewrite <- Nat2Z.inj_sub by lia.
  destruct (animation_struct_codes big) as [Hc Hbig].
  rewrite unpack_from_inside
    by (rewrite Hc; change (codes_size animation_codes) with 8%nat; lia).
  rewrite Hc, Hbig. change (codes_size animation_codes) with 8%nat.
  rewrite unpack_header by (apply length_slice; lia). cbn [bind].
  rewrite !word_at_slice, Nat.add_0_r, Hn, Nat2Z.id by lia.
  cbn [Animation_init sounds _lookup_].
  replace N with (j + (N - j))%nat at 1 by lia.
  rewrite unpack_loop_add.
  replace (- Z.of_nat (8 + 32 * j) + 8) with (- (32 * Z.of_nat j)) by lia.
  rewrite unpack_loop_from_end by lia.
  replace (Z.of_nat (length B) - 32 * Z.of_nat j)
    with (Z.of_nat (length B - 32 * j)) by lia.
  replace (- (32 * Z.of_nat j) + 32 * Z.of_nat j) with 0 by lia.
  destruct (unpack_loop t B big j _ []); cbn [bind]; reflexivity.
Qed.

End FurtherDecoding.

(** ** Further properties of encoding *)

Section FurtherEncoding.
Context {FC : FloatCodec}.



(** X11.  What [_pack_] writes, [_unpack_] reads back: a sound read from
    32 bytes, whose floats the float codec reads back as it writes them,
    packed anywhere in a buffer with room for it, is unpacked from there
    as it was, in either byte order. *)
Theorem pack_then_unpack_in_place (t : JAUSoundIdTable) (s : JAUSoundAnimationSound)
    (data : list byte) (off : nat) (big : bool) :
  is_dict t = true ->
  decoded t s ->
  faithful_floats s ->
  (off + 32 <= length data)%nat ->
  exists data',
    Sound_pack s data (Z.of_nat off) big t = Ok data'
    /\ Sound_unpack data' (Z.of_nat off) big t = Ok s.
Proof.
  intros Hd (big0 & slot & Hls & Hs) Hf Hfit.
  destruct (Sound_unpack_bytes slot big0 big t s Hd Hls Hs Hf) as (bs & Hbs & Hl & Hu).
  rewrite Sound_pack_inside by assumption. rewrite Hbs. cbn [bind].
  eexists. split; [reflexivity|].
  assert (Hpre : length (firstn off data) = off) by (rewrite length_firstn; lia).
  rewrite <- Hu.
  etransitivity;
    [|apply (Sound_unpack_app (firstn off data) bs (skipn (off + 32) data) big t Hl)].
  now rewrite Hpre.
Qed.

Lemma collect_nth {A B : Type} (f : A -> result B) (l : list A) :
  forall bs k a,
    collect f l = Ok bs -> nth_error l k = Some a ->
    exists b, nth_error bs k = Some b /\ f a = Ok b.
Proof.
  induction l as [|x l IH]; intros bs k a H Hk.
  - destruct k; discriminate.
  - cbn [collect] in H. apply bind_ok in H as (b & Hb & H).
    apply bind_ok in H as (bs' & H & [= <-]).
    destruct k as [|k]; cbn [nth_error] in *.
    + injection Hk as <-. eauto.
    + eauto.
Qed.

(** X16.  [makebin] encodes sound by sound: the 32 bytes at [8 + 32 * k]
    of its output are the bytes [_pack_] writes for the sound [k] alone,
    at any offset of any buffer with room for them; no sound has a part in
    the bytes of another. *)
Theorem makebin_is_entry_wise (A : JAUSoundAnimation) (big : bool) (b : list byte)
    (k : nat) (s : JAUSoundAnimationSound) (data : list byte) (off : nat) :
  makebin A big = Ok b ->
  nth_error (sounds A) k = Some s ->
  (off + 32 <= length data)%nat ->
  Sound_pack s data (Z.of_nat off) big (_lookup_ A)
  = Ok (firstn off data ++ slice b (8 + 32 * k) 32 ++ skipn (off + 32) data).
Proof.
  intros H Hk Hfit.
  apply makebin_ok in H as (h & es & -> & _ & Hes & Hh & Hl & Hall).
  destruct (collect_nth _ _ _ _ _ Hes Hk) as (bs & Hbs & Hs).
  rewrite Sound_pack_inside by assumption. rewrite Hs. cbn [bind].
  do 3 f_equal.
  assert (Hlt : (k < length es)%nat).
  { apply nth_error_Some. rewrite Hbs. discriminate. }
  unfold slice. rewrite skipn_app, Hh.
  rewrite skipn_all2 by lia. cbn [app].
  replace (8 + 32 * k - 8)%nat with (32 * k)%nat by lia.
  change (firstn 32 (skipn (32 * k) (concat es))) with (slice (concat es) (32 * k) 32).
  rewrite <- (nth_chunks (length es)) by assumption.
  rewrite <- (app_nil_r (concat es)), chunks_concat by assumption.
  symmetry. now apply nth_error_nth.
Qed.

End FurtherEncoding.

(** ** Further properties of the JSON helpers *)

Section FurtherJson.
Context {FC : FloatCodec}.

Lemma assoc_get_raise (d : list (string * pyval)) (key : string) (e : exn) :
  assoc_get d key = Raise e -> e = KeyError.
Proof.
  induction d as [|[k v] d IH]; simpl; [now intros [= <-]|].
  destruct (String.eqb k key); [discriminate | assumption].
Qed.

Lemma from_json_sound_ok (sound_entry : pyval) (s : JAUSoundAnimationSound) :
  from_json_sound sound_entry = Ok s ->
  start_frame s = PFloat float_0
  /\ py_getitem sound_entry "start_frame" = Ok (sound s).
Proof.
  unfold from_json_sound. intros H.
  apply bind_ok in H as (v0 & H0 & H).
  repeat (apply bind_ok in H as (? & _ & H)).
  injection H as <-. split; [reflexivity | exact H0].
Qed.

Lemma from_json_loop_ok (entries : list pyval) :
  forall acc ss,
    from_json_loop entries acc = Ok ss ->
    exists new, ss = acc ++ new
                /\ Forall2 (fun e s => from_json_sound e = Ok s) entries new.
Proof.
  induction entries as [|e entries IH]; intros acc ss H.
  - injection H as <-. exists []. split; [now rewrite app_nil_r | constructor].
  - cbn [from_json_loop] in H. apply bind_ok in H as (s & Hs & H).
    apply IH in H as (new & -> & Hall).
    exists (s :: new). split; [now rewrite <- app_assoc | now constructor].
Qed.

(** X12.  Whatever the document, the animation [from_json] returns holds
    the table it was given, and every sound of it has the start frame 0.0
    and, as its name, the value the document gives as start frame. *)
Theorem loaded_sounds_lose_their_start_frame (t : JAUSoundIdTable) (jsondata : pyval)
    (A : JAUSoundAnimation) :
  from_json t jsondata = Ok A ->
  _lookup_ A = t
  /\ exists entries,
       (v <- py_getitem jsondata "sounds" ;; py_iter v) = Ok entries
       /\ Forall2 (fun e s => start_frame s = PFloat float_0
                              /\ py_getitem e "start_frame" = Ok (sound s))
            entries (sounds A).
Proof.
  unfold from_json. intros H.
  apply bind_ok in H as (u2 & _ & H). apply bind_ok in H as (u3 & _ & H).
  apply bind_ok in H as (vs & Hvs & H). apply bind_ok in H as (entries & He & H).
  apply bind_ok in H as (ss & Hss & [= <-]). cbn [_lookup_ sounds].
  split; [reflexivity|]. exists entries. rewrite Hvs. cbn [bind].
  split; [exact He|].
  apply from_json_loop_ok in Hss as (new & -> & Hall). cbn [app].
  clear He. induction Hall as [|e s es new He' _ IH]; constructor;
    [now apply from_json_sound_ok | exact IH].
Qed.

Lemma from_json_sound_keys (d : list (string * pyval)) :
  if has_read_keys d then is_ok (from_json_sound (PDict d)) = true
  else from_json_sound (PDict d) = Raise KeyError.
Proof.
  unfold has_read_keys, read_keys, from_json_sound.
  cbn [forallb py_getitem].
  repeat match goal with
         | |- context [assoc_get d ?k] =>
             let E := fresh "E" in
             destruct (assoc_get d k) as [?|?] eqn:E;
             [ cbn [bind is_ok andb]
             | apply assoc_get_raise in E; subst; cbn [bind is_ok andb]; reflexivity ]
         end.
  reflexivity.
Qed.

Lemma from_json_loop_keys (ds : list (list (string * pyval))) :
  forall acc,
    if forallb has_read_keys ds
    then is_ok (from_json_loop (map PDict ds) acc) = true
    else from_json_loop (map PDict ds) acc = Raise KeyError.
Proof.
  induction ds as [|d ds IH]; intros acc; cbn [forallb map from_json_loop];
    [reflexivity|].
  pose proof (from_json_sound_keys d) as Hd.
  destruct (has_read_keys d); cbn [andb].
  - destruct (from_json_sound (PDict d)) as [s|]; [|discriminate]. cbn [bind].
    apply IH.
  - now rewrite Hd.
Qed.

(** X13.  A document is loaded when it is an object with [unk2], [unk3]
    and a list [sounds] of objects that each hold the ten keys read, from
    [start_frame] to [unk19]; the key [sound] is not asked for.  When one
    of the sound objects lacks one of the ten keys KeyError is raised, and
    a document that is not an object raises TypeError. *)
Theorem document_shape (t : JAUSoundIdTable) (v2 v3 : pyval)
    (ds : list (list (string * pyval))) :
  (forallb has_read_keys ds = true ->
   exists A,
     from_json t (PDict [("unk2"%string, v2); ("unk3"%string, v3);
                         ("sounds"%string, PList (map PDict ds))]) = Ok A
     /\ unk2 A = v2 /\ unk3 A = v3 /\ length (sounds A) = length ds)
  /\ (forallb has_read_keys ds = false ->
      from_json t (PDict [("unk2"%string, v2); ("unk3"%string, v3);
                          ("sounds"%string, PList (map PDict ds))])
      = Raise KeyError)
  /\ (forall jsondata,
         match jsondata with
         | PDict _ => True
         | _ => from_json t jsondata = Raise TypeError
         end).
Proof.
  split; [|split].
  - intros H. unfold from_json.
    cbn [py_getitem assoc_get String.eqb Ascii.eqb Bool.eqb bind py_iter].
    pose proof (from_json_loop_keys ds []) as Hk. rewrite H in Hk.
    destruct (from_json_loop (map PDict ds) []) as [ss|] eqn:Hss; [|discriminate].
    cbn [bind]. eexists. split; [reflexivity|]. cbn [unk2 unk3 sounds].
    repeat split.
    apply from_json_loop_ok in Hss as (new & -> & Hall). cbn [app].
    apply Forall2_length in Hall. now rewrite length_map in Hall.
  - intros H. unfold from_json.
    cbn [py_getitem assoc_get String.eqb Ascii.eqb Bool.eqb bind py_iter].
    pose proof (from_json_loop_keys ds []) as Hk. rewrite H in Hk.
    now rewrite Hk.
  - intros []; reflexivity || exact I.
Qed.

(** X14.  What [dump_json] wrote can not be packed again: for an
    animation read from a buffer that holds at least one sound,
    [from_json] loads the document and [pack_buffer] on the loaded
    animation raises KeyError, because the name of its first sound is a
    float. *)
Theorem dumped_animation_is_not_packed (t : JAUSoundIdTable) (B : list byte)
    (off : Z) (big0 big : bool) (A : JAUSoundAnimation) :
  from_buffer t B off big0 = Ok A ->
  sounds A <> [] ->
  exists A', from_json t (dump_json A) = Ok A'
             /\ pack_buffer A' big = Raise KeyError.
Proof.
  intros H Hne.
  apply from_buffer_ok in H as (hdr & ss & Hl & -> & Hn & Hall).
  cbn [sounds] in Hne.
  eexists. split.
  { unfold from_json, dump_json.
    cbn [py_getitem assoc_get String.eqb Ascii.eqb Bool.eqb bind py_iter
         unk2 unk3 sounds].
    rewrite from_json_loop_dump. reflexivity. }
  unfold pack_buffer. rewrite makebin_bytes.
  cbn [sounds unk2 unk3 _lookup_ app]. rewrite length_map.
  destruct (header_pack big (length ss) (PInt (word_at big0 hdr 2 1))
              (PInt (word_at big0 hdr 3 1))) as (h & -> & _).
  { rewrite Hn. pose proof (uint_value_bound big0 (slice hdr 0 2)) as Hb.
    rewrite length_slice in Hb by lia. unfold word_at.
    change (2 ^ (8 * Z.of_nat 2)) with 65536 in Hb. lia. }
  { apply (unpack_uint_is_uint big0 1). apply length_slice. lia. }
  { apply (unpack_uint_is_uint big0 1). apply length_slice. lia. }
  cbn [bind]. destruct ss as [|s ss]; [contradiction|].
  inversion Hall as [|? ? (big' & slot & Hls & Hs) _]; subst.
  rewrite Sound_unpack_slot in Hs by assumption.
  explode slot of Hls into 32.
  cbn [Sound_assign unpack_codes sound_codes unpack_code code_size firstn skipn] in Hs.
  match type of Hs with
  | context [find_name t ?i] => destruct (find_name t i); [|discriminate]
  end.
  injection Hs as <-. reflexivity.
Qed.

End FurtherJson.

(** ** The two byte orders *)

Section ByteOrders.
Context {FC : FloatCodec}.

Lemma pack_header_count (big : bool) (n : Z) (v2 v3 : pyval) (h : list byte) :
  pack_codes big animation_codes [PInt n; v2; v3] = Ok h ->
  0 <= n <= 65535 /\ length h = 8%nat /\ word_at big h 0 2 = n.
Proof.
  intros H. pose proof (pack_codes_length _ _ _ _ H) as Hl.
  cbn [pack_codes animation_codes pack_code] in H.
  apply bind_ok in H as (b0 & Hb0 & H). apply bind_ok in H as (rest & _ & [= <-]).
  unfold pack_uint in Hb0. cbn [as_index] in Hb0.
  destruct ((0 <=? n) && (n <? 2 ^ (8 * Z.of_nat 2))) eqn:E; [|discriminate].
  injection Hb0 as <-.
  apply andb_prop in E as [E0 E1]. apply Z.leb_le in E0. apply Z.ltb_lt in E1.
  change (2 ^ (8 * Z.of_nat 2)) with 65536 in E1.
  split; [lia|]. split; [exact Hl|].
  assert (Hs : slice (uint_bytes big 2 n ++ rest) 0 2 = uint_bytes big 2 n).
  { pose proof (slice_middle [] (uint_bytes big 2 n) rest) as Hs.
    now rewrite length_uint_bytes in Hs. }
  unfold word_at. rewrite Hs, uint_value_bytes.
  change (2 ^ (8 * Z.of_nat 2)) with 65536. apply Z.mod_small. lia.
Qed.

(** X17.  The count [makebin] writes is the number of sounds, whatever
    the sounds and [unk2] and [unk3] hold: when bytes are returned there
    are [8 + 32 * N] of them for the [N] sounds of the animation, [N] is
    at most 65535 and the count field holds [N]. *)
Theorem encoded_count_is_length (A : JAUSoundAnimation) (big : bool) (b : list byte) :
  pack_buffer A big = Ok b ->
  Z.of_nat (length (sounds A)) <= 65535
  /\ length b = (8 + 32 * length (sounds A))%nat
  /\ word_at big b 0 2 = Z.of_nat (length (sounds A)).
Proof.
  unfold pack_buffer. intros H.
  apply makebin_ok in H as (h & es & -> & Hh & _ & _ & Hle & Hall).
  apply pack_header_count in Hh as (Hn & Hl & Hw).
  split; [lia|]. split.
  - rewrite length_app, length_concat_slots, Hl, Hle by assumption. reflexivity.
  - rewrite <- Hw. unfold word_at, slice. cbn [skipn].
    rewrite firstn_app, Hl. cbn [Nat.sub firstn]. now rewrite app_nil_r.
Qed.

Lemma firstn_app_exact {A : Type} (l1 l2 : list A) (n : nat) :
  length l1 = n -> firstn n (l1 ++ l2) = l1.
Proof.
  intros <-. rewrite firstn_app, firstn_all, Nat.sub_diag. apply app_nil_r.
Qed.

Lemma skipn_app_exact {A : Type} (l1 l2 : list A) (n : nat) :
  length l1 = n -> skipn n (l1 ++ l2) = l2.
Proof.
  intros <-. now rewrite skipn_app, skipn_all, Nat.sub_diag.
Qed.

Lemma pack_code_orders (c : fmtcode) (v : pyval) :
  match pack_code true c v, pack_code false c v with
  | Ok b, Ok b' =>
      length b = code_size c /\ length b' = code_size c
      /\ unpack_code true c b = unpack_code false c b'
  | Raise e, Raise e' => e = e'
  | _, _ => False
  end.
Proof.
  assert (Hu : forall n, match pack_uint true n v, pack_uint false n v with
                         | Ok b, Ok b' =>
                             length b = n /\ length b' = n
                             /\ uint_value true b = uint_value false b'
                         | Raise e, Raise e' => e = e'
                         | _, _ => False
                         end).
  { intros n. unfold pack_uint. destruct (as_index v) as [z|]; [|reflexivity].
    destruct ((0 <=? z) && (z <? 2 ^ (8 * Z.of_nat n))); [|reflexivity].
    rewrite !length_uint_bytes, !uint_value_bytes. repeat split. }
  destruct c; cbn [pack_code code_size unpack_code].
  - repeat split.
  - specialize (Hu 1%nat). destruct (pack_uint true 1 v), (pack_uint false 1 v);
      try assumption. destruct Hu as (? & ? & ->). repeat split; assumption.
  - specialize (Hu 2%nat). destruct (pack_uint true 2 v), (pack_uint false 2 v);
      try assumption. destruct Hu as (? & ? & ->). repeat split; assumption.
  - specialize (Hu 4%nat). destruct (pack_uint true 4 v), (pack_uint false 4 v);
      try assumption. destruct Hu as (? & ? & ->). repeat split; assumption.
  - unfold pack_float. destruct (as_double v) as [x|]; [|reflexivity].
    destruct (f32_pack x) as [w|]; [|destruct (is_pylong v); reflexivity].
    rewrite !length_uint_bytes, !uint_value_bytes. repeat split.
Qed.

Lemma pack_codes_orders (cs : list fmtcode) :
  forall vs,
    match pack_codes true cs vs, pack_codes false cs vs with
    | Ok b, Ok b' =>
        length b = codes_size cs /\ length b' = codes_size cs
        /\ unpack_codes true cs b = unpack_codes false cs b'
    | Raise e, Raise e' => e = e'
    | _, _ => False
    end.
Proof.
  induction cs as [|c cs IH]; intros vs; [repeat split|].
  assert (Hx : match (rest <- pack_codes true cs vs ;; Ok (Byte.x00 :: rest)),
                     (rest <- pack_codes false cs vs ;; Ok (Byte.x00 :: rest)) with
               | Ok b, Ok b' =>
                   length b = S (codes_size cs) /\ length b' = S (codes_size cs)
                   /\ unpack_codes true cs (skipn 1 b) = unpack_codes false cs (skipn 1 b')
               | Raise e, Raise e' => e = e'
               | _, _ => False
               end).
  { specialize (IH vs).
    destruct (pack_codes true cs vs), (pack_codes false cs vs); cbn [bind];
      try assumption.
    destruct IH as (H1 & H2 & H3). cbn [length skipn]. repeat split; congruence. }
  assert (Hc : c <> c_x ->
               match vs with
               | [] => True
               | v :: vs' =>
                   match (b <- pack_code true c v ;;
                          rest <- pack_codes true cs vs' ;; Ok (b ++ rest)),
                         (b <- pack_code false c v ;;
                          rest <- pack_codes false cs vs' ;; Ok (b ++ rest)) with
                   | Ok b, Ok b' =>
                       length b = (code_size c + codes_size cs)%nat
                       /\ length b' = (code_size c + codes_size cs)%nat
                       /\ unpack_code true c (firstn (code_size c) b)
                          = unpack_code false c (firstn (code_size c) b')
                       /\ unpack_codes true cs (skipn (code_size c) b)
                          = unpack_codes false cs (skipn (code_size c) b')
                   | Raise e, Raise e' => e = e'
                   | _, _ => False
                   end
               end).
  { intros _. destruct vs as [|v vs']; [exact I|].
    pose proof (pack_code_orders c v) as Hv. specialize (IH vs').
    destruct (pack_code true c v) as [b|], (pack_code false c v) as [b'|];
      cbn [bind]; try solve [assumption | contradiction].
    destruct Hv as (Hb & Hb' & Hv).
    destruct (pack_codes true cs vs') as [r|], (pack_codes false cs vs') as [r'|];
      cbn [bind]; try assumption.
    destruct IH as (Hr & Hr' & IH).
    rewrite !length_app, Hb, Hb', Hr, Hr'.
    rewrite !firstn_app_exact, !skipn_app_exact by assumption.
    repeat split; assumption. }
  destruct c; cbn [pack_codes unpack_codes codes_size code_size] in *;
    try exact Hx;
    (specialize (Hc ltac:(discriminate)); destruct vs as [|v vs']; [reflexivity|];
     match goal with
     | |- match ?l with _ => _ end =>
         destruct l; match goal with
                     | |- match ?r with _ => _ end => destruct r
                     end
     end; try assumption;
     destruct Hc as (H1 & H2 & H3 & H4); repeat split;
     [exact H1 | exact H2 | now rewrite H3, H4]).
Qed.

Lemma Sound_bytes_orders (t : JAUSoundIdTable) (s : JAUSoundAnimationSound) :
  match Sound_bytes t true s, Sound_bytes t false s with
  | Ok b, Ok b' =>
      length b = 32%nat /\ length b' = 32%nat
      /\ forall t', Sound_unpack b 0 true t' = Sound_unpack b' 0 false t'
  | Raise e, Raise e' => e = e'
  | _, _ => False
  end.
Proof.
  unfold Sound_bytes. destruct (find_id t (sound s)) as [i|]; cbn [bind];
    [|reflexivity].
  match goal with
  | |- context [pack_codes true sound_codes ?vs] =>
      pose proof (pack_codes_orders sound_codes vs) as H;
      destruct (pack_codes true sound_codes vs),
               (pack_codes false sound_codes vs); try assumption
  end.
  destruct H as (H1 & H2 & H3). change (codes_size sound_codes) with 32%nat in *.
  repeat split; try assumption.
  intros t'. rewrite !Sound_unpack_slot by assumption. now rewrite H3.
Qed.

Lemma collect_alike {A B : Type} (R : B -> B -> Prop) (f g : A -> result B)
    (l : list A) :
  (forall a, match f a, g a with
             | Ok b, Ok b' => R b b'
             | Raise e, Raise e' => e = e'
             | _, _ => False
             end) ->
  match collect f l, collect g l with
  | Ok bs, Ok bs' => Forall2 R bs bs'
  | Raise e, Raise e' => e = e'
  | _, _ => False
  end.
Proof.
  intros H. induction l as [|a l IH]; cbn [collect]; [constructor|].
  specialize (H a).
  destruct (f a), (g a); cbn [bind]; try solve [assumption | contradiction].
  destruct (collect f l), (collect g l); cbn [bind]; try assumption.
  now constructor.
Qed.

Lemma collect_Forall2 {A B : Type} (f g : A -> result B) (l l' : list A) :
  Forall2 (fun a a' => f a = g a') l l' -> collect f l = collect g l'.
Proof.
  induction 1 as [|a a' l l' Ha _ IH]; cbn [collect]; [reflexivity|].
  now rewrite Ha, IH.
Qed.

Lemma from_buffer_of_slots (t : JAUSoundIdTable) (big : bool) (h : list byte)
    (es : list (list byte)) :
  length h = 8%nat ->
  Forall (fun slot => length slot = 32%nat) es ->
  word_at big h 0 2 = Z.of_nat (length es) ->
  from_buffer t (h ++ concat es) 0 big
  = (ss <- collect (fun slot => Sound_unpack slot 0 big t) es ;;
     Ok {| _lookup_ := t;
           unk2 := PInt (word_at big h 2 1);
           unk3 := PInt (word_at big h 3 1);
           sounds := ss |}).
Proof.
  intros Hl Hall Hw.
  pose proof (from_buffer_slots t big [] h es [] 0 Hl Hall) as H.
  cbn [app length] in H. rewrite app_nil_r in H. change (Z.of_nat 0) with 0 in H.
  rewrite H by (rewrite Hw, Nat2Z.id; lia).
  destruct (collect _ es); reflexivity.
Qed.

(** X18.  The byte order decides no outcome of encoding: big-endian and
    little-endian [pack_buffer] of an animation raise the same exception
    or both return bytes, as many in either order, and the two byte
    strings, each decoded in its own byte order, give the same result
    under every table. *)
Theorem byte_order_decides_no_outcome (A : JAUSoundAnimation) :
  match pack_buffer A true, pack_buffer A false with
  | Ok b, Ok b' =>
      length b = length b'
      /\ forall t, from_buffer t b 0 true = from_buffer t b' 0 false
  | Raise e, Raise e' => e = e'
  | _, _ => False
  end.
Proof.
  unfold pack_buffer. rewrite !makebin_bytes.
  match goal with
  | |- context [pack_codes true animation_codes ?vs] =>
      pose proof (pack_codes_orders animation_codes vs) as Hh;
      destruct (pack_codes true animation_codes vs) as [h|] eqn:E,
               (pack_codes false animation_codes vs) as [h'|] eqn:E';
      cbn [bind]; try solve [assumption | contradiction]
  end.
  destruct Hh as (Hl & Hl' & Hu).
  change (codes_size animation_codes) with 8%nat in *.
  rewrite !unpack_header in Hu by assumption.
  pose proof (f_equal (fun vs => nth 1 vs PNone) Hu) as Hu2.
  pose proof (f_equal (fun vs => nth 2 vs PNone) Hu) as Hu3.
  cbn [nth] in Hu2, Hu3. clear Hu.
  apply pack_header_count in E as (_ & _ & Hw).
  apply pack_header_count in E' as (_ & _ & Hw').
  pose proof (collect_alike _ _ _ (sounds A) (Sound_bytes_orders (_lookup_ A))) as Hes.
  pose proof (collect_length (Sound_bytes (_lookup_ A) true) (sounds A)) as Hn.
  pose proof (collect_length (Sound_bytes (_lookup_ A) false) (sounds A)) as Hn'.
  destruct (collect (Sound_bytes (_lookup_ A) true) (sounds A)) as [es|],
           (collect (Sound_bytes (_lookup_ A) false) (sounds A)) as [es'|];
    cbn [bind]; try assumption.
  specialize (Hn _ eq_refl). specialize (Hn' _ eq_refl).
  assert (Hall : Forall (fun slot => length slot = 32%nat) es).
  { clear -Hes. induction Hes as [|? ? ? ? (? & _) _ IH]; constructor; assumption. }
  assert (Hall' : Forall (fun slot => length slot = 32%nat) es').
  { clear -Hes. induction Hes as [|? ? ? ? (_ & ? & _) _ IH]; constructor; assumption. }
  split.
  - rewrite !length_app, !length_concat_slots by assumption. lia.
  - intros t.
    rewrite !from_buffer_of_slots by (assumption || congruence).
    rewrite Hu2, Hu3.
    rewrite (collect_Forall2 (fun slot => Sound_unpack slot 0 true t)
               (fun slot => Sound_unpack slot 0 false t) es es'); [reflexivity|].
    clear -Hes. induction Hes as [|? ? ? ? (_ & _ & H) _ IH]; constructor;
      [apply H | assumption].
Qed.

End ByteOrders.

(** ** The further properties on the sample data *)

(** X1 on the sample table. *)
Lemma found_name_maps_back_witness :
  find_id Sample.table (PStr (FC := ieee) "b") = Ok 7.
Proof.
  apply (found_name_maps_back (FC := ieee) Sample.table 7 "b"); reflexivity.
Defined.


(** X3 on the table of the lines ["a,5"], ["b,5"] and ["a,9"]. *)
Lemma constructed_table_has_distinct_names_witness :
  NoDup (map fst [("a"%string, 9); ("b"%string, 5)]).
Proof.
  apply (constructed_table_has_distinct_names
           (Lines ["a,5"; "b,5"; "a,9"]%string) [("a"%string, 9); ("b"%string, 5)]).
  reflexivity.
Defined.

(** X4 on the same lines: the line ["b,5"] decides for ["b"]. *)
Lemma last_line_decides_witness :
  find_id [("a"%string, 9); ("b"%string, 5)] (PStr (FC := ieee) "b") = Ok 5.
Proof.
  apply (last_line_decides (FC := ieee) ["a,5"%string] ["a,9"%string] "b,5" "b" 5).
  - reflexivity.
  - reflexivity.
  - intros l' n i [<- | []] [= <- _]. discriminate.
Defined.

(** X5 on lines that end in a line feed, and on a file whose second line
    is a carriage return and a line feed. *)
Lemma line_terminators_witness :
  JAUSoundIdTable_init
    (Lines (map (fun l => l ++ String "010"%char EmptyString)%string
              ["a,5"; "b,7"]%string))
  = JAUSoundIdTable_init (Lines ["a,5"; "b,7"]%string)
  /\ JAUSoundIdTable_init
       (Lines (["a,5"%string]
                 ++ String "013"%char (String "010"%char EmptyString)
                 :: ["b,7"%string]))
     = Raise ValueError.
Proof.
  destruct line_terminators as [H1 H2]. split.
  - apply (H1 "010"%char). reflexivity.
  - apply H2. reflexivity.
Defined.

(** X6 on the sample buffer. *)
Lemma decoded_animation_is_typed_witness :
  is_uint 1 (unk2 Sample.animation) = true
  /\ Z.of_nat (length (sounds Sample.animation)) <= 65535.
Proof.
  destruct (decoded_animation_is_typed Sample.table Sample.buffer 0 true
              Sample.animation) as (_ & H2 & _ & Hn & _).
  - reflexivity.
  - split; assumption.
Defined.


(** X8 on the padded sample buffer: 85 bytes, decoded 45 bytes before
    the end. *)
Lemma negative_offset_counts_from_end_witness :
  from_buffer Sample.table Sample.padded_buffer (- Z.of_nat 45) true
  = from_buffer Sample.table Sample.padded_buffer
      (Z.of_nat (length Sample.padded_buffer - 45)) true.
Proof.
  apply (negative_offset_counts_from_end Sample.table Sample.padded_buffer 45 1 true).
  - vm_compute. lia.
  - vm_compute. reflexivity.
Defined.


(** X11 on the sample sound, packed little-endian at 10 into 48 bytes. *)
Lemma pack_then_unpack_in_place_witness :
  exists data',
    Sound_pack MoreSamples.sound_b MoreSamples.blank_buffer (Z.of_nat 10) false
      Sample.table = Ok data'
    /\ Sound_unpack data' (Z.of_nat 10) false Sample.table = Ok MoreSamples.sound_b.
Proof.
  apply (pack_then_unpack_in_place Sample.table MoreSamples.sound_b
           MoreSamples.blank_buffer 10 false).
  - reflexivity.
  - exists true, (skipn 8 Sample.buffer). split; reflexivity.
  - repeat split; eexists; split; reflexivity.
  - vm_compute. lia.
Defined.

(** X12 on a document whose sound object gives ["a"] as start frame. *)
Lemma loaded_sounds_lose_their_start_frame_witness :
  _lookup_ MoreSamples.loaded_animation = Sample.table
  /\ exists entries,
       (v <- py_getitem MoreSamples.nameless_document "sounds" ;; py_iter v)
       = Ok entries
       /\ Forall2 (fun e s => start_frame s = PFloat float_0
                              /\ py_getitem e "start_frame" = Ok (sound s))
            entries (sounds MoreSamples.loaded_animation).
Proof.
  apply (loaded_sounds_lose_their_start_frame Sample.table
           MoreSamples.nameless_document MoreSamples.loaded_animation).
  reflexivity.
Defined.

(** X13 on the same document, which has no key ["sound"]. *)
Lemma document_shape_witness :
  exists A,
    from_json Sample.table MoreSamples.nameless_document = Ok A
    /\ unk2 A = PInt 1 /\ unk3 A = PInt 2 /\ length (sounds A) = 1%nat.
Proof.
  destruct (document_shape Sample.table (PInt 1) (PInt 2)
              [MoreSamples.nameless_sound]) as [H _].
  apply H. reflexivity.
Defined.

(** X14 on the sample buffer. *)
Lemma dumped_animation_is_not_packed_witness :
  exists A', from_json Sample.table (dump_json Sample.animation) = Ok A'
             /\ pack_buffer A' true = Raise KeyError.
Proof.
  apply (dumped_animation_is_not_packed Sample.table Sample.buffer 0 true true
           Sample.animation).
  - reflexivity.
  - discriminate.
Defined.

(** X16 on the sample animation: its sound packed at 10 into 48 bytes. *)
Lemma makebin_is_entry_wise_witness :
  Sound_pack MoreSamples.sound_b MoreSamples.blank_buffer (Z.of_nat 10) true
    Sample.table
  = Ok (firstn 10 MoreSamples.blank_buffer
          ++ slice Sample.buffer (8 + 32 * 0) 32
          ++ skipn (10 + 32) MoreSamples.blank_buffer).
Proof.
  apply (makebin_is_entry_wise Sample.animation true Sample.buffer 0
           MoreSamples.sound_b MoreSamples.blank_buffer 10).
  - reflexivity.
  - reflexivity.
  - vm_compute. lia.
Defined.

(** X17 on the sample animation. *)
Lemma encoded_count_is_length_witness :
  Z.of_nat (length (sounds Sample.animation)) <= 65535
  /\ length Sample.buffer = (8 + 32 * length (sounds Sample.animation))%nat
  /\ word_at true Sample.buffer 0 2 = Z.of_nat (length (sounds Sample.animation)).
Proof.
  apply (encoded_count_is_length Sample.animation true Sample.buffer).
  reflexivity.
Defined.

(** X19 on the sample entry followed by the sample header: decoded at the
    offset -8, the header is the last 8 bytes and the entry is read at 0. *)
Lemma negative_offset_wraps_witness :
  from_buffer Sample.table MoreSamples.wrapped_buffer (- Z.of_nat (8 + 32 * 0)) true
  = Ok Sample.animation.
Proof.
  rewrite (negative_offset_wraps Sample.table MoreSamples.wrapped_buffer 0 1 true).
  - reflexivity.
  - vm_compute. lia.
  - lia.
  - vm_compute. reflexivity.
Defined.
